(** * gmail-as-api: a shallow embedding of [server.js] and of the CLI script

    The development follows the source file function by function:
    JavaScript values and the few engine primitives the server relies on,
    the pure helpers ([parseDataUrl], [normalizeAttachments],
    [normalizeHeaders], [formatAddress], [base64UrlEncode]), the process
    environment and start-up checks, the mutable server state
    ([oauthStates], [cachedAuthClient], the token file) and the three
    request handlers.  Asynchronous handlers are written in
    continuation-passing style: a handler runs up to its next [await],
    exposes the server state it leaves behind, and is resumed with the
    settled promise and the server state found at that moment. *)

From Stdlib Require Import Ascii.
From stdpp Require Import gmap strings list fin_maps pretty.

Local Open Scope string_scope.
Local Set Warnings "-register-all".

(** ** JavaScript values *)

(** Numbers are IEEE doubles in the engine; the server never computes with
    the numbers found in request bodies, it only tests them for truthiness,
    prints them and serialises them.  Those operations are taken from the
    engine, together with the split of a string into its UTF-16 code units
    (used only when a string is spread into an object).  Strings are byte
    strings holding the (generalised) UTF-8 form of the JavaScript string. *)
Class JsEngine (number : Type) := {
  (** [ToBoolean] on a number: false for [0], [-0] and [NaN]. *)
  num_truthy : number -> bool;
  (** [Number::toString]. *)
  num_to_string : number -> string;
  (** what [JSON.parse (JSON.stringify n)] gives: [None] stands for [null]
      (non-finite numbers). *)
  num_json : number -> option number;
  (** the code units of a string, each as a one-unit string. *)
  str_units : string -> list string
}.

(** An engine whose numbers are the integers, for closed examples: every
    integer is finite, [0] is the only falsy one, and the strings of the
    examples are ASCII, one code unit per byte. *)
#[global] Instance Z_engine : JsEngine Z := {|
  num_truthy n := negb (n =? 0)%Z;
  num_to_string n := pretty n;
  num_json n := Some n;
  str_units s := (fun c => String c "") <$> String.list_ascii_of_string s
|}.

(** ** Exceptions *)

(** [class ValidationError extends Error]; every other exception the
    handlers can meet ([Error], [TypeError], [SyntaxError]) is only ever
    read through its [message]. *)
Inductive Exn :=
| ValidationError (message : string)
| JsError (message : string).

Definition exn_message (e : Exn) : string :=
  match e with ValidationError m | JsError m => m end.

Definition Res (A : Type) : Type := Exn + A.

Definition ret {A} (a : A) : Res A := inr a.
Definition throw {A} (e : Exn) : Res A := inl e.
Definition bind {A B} (m : Res A) (k : A -> Res B) : Res B :=
  match m with inl e => inl e | inr a => k a end.

Notation "'let*' x := m 'in' k" := (bind m (fun x => k))
  (at level 10, x name, m at level 100, k at level 200).

(** The outcome of an awaited promise. *)
Inductive Settled (A : Type) :=
| Fulfilled (a : A)
| Rejected (message : string).
Arguments Fulfilled {A} a.
Arguments Rejected {A} message.

Section Server.

Context {number : Type} `{JsEngine number}.

Inductive JsVal :=
| JUndefined
| JNull
| JBool (b : bool)
| JNum (n : number)
| JStr (s : string)
| JArr (l : list JsVal)
| JObj (o : gmap string JsVal).

(** [ToBoolean]. *)
Definition truthy (v : JsVal) : bool :=
  match v with
  | JUndefined | JNull => false
  | JBool b => b
  | JNum n => num_truthy n
  | JStr s => negb (String.eqb s "")
  | JArr _ | JObj _ => true
  end.

(** [String(v)] for plain data.  The conversion of an object goes through
    its [toString] property: an object parsed from JSON that has an own
    entry of that name (never a function) hides the method of
    [Object.prototype], the inherited [valueOf] returns the object itself,
    and the conversion throws a [TypeError].  An array is converted by
    [join], which converts each element other than [null] and
    [undefined], and so throws when one of them does. *)
Fixpoint String_throws (v : JsVal) : bool :=
  match v with
  | JArr l => existsb String_throws l
  | JObj o => bool_decide (is_Some (o !! "toString"))
  | _ => false
  end.

(** The string [String(v)] returns when it returns: arrays join their
    elements with a comma, printing [null] and [undefined] elements as the
    empty string; plain objects print as ["[object Object]"]. *)
Fixpoint String_value (v : JsVal) : string :=
  match v with
  | JUndefined => "undefined"
  | JNull => "null"
  | JBool true => "true"
  | JBool false => "false"
  | JNum n => num_to_string n
  | JStr s => s
  | JArr l =>
      String.concat ","
        (map (fun x => match x with
                       | JUndefined | JNull => ""
                       | _ => String_value x
                       end) l)
  | JObj _ => "[object Object]"
  end.

Definition js_String (v : JsVal) : Res string :=
  if String_throws v then throw (JsError "Cannot convert object to primitive value")
  else ret (String_value v).

(** Index-keyed entries [("0", x0); ("1", x1); ...] of a sequence. *)
Definition indexed (l : list JsVal) : gmap string JsVal :=
  list_to_map (imap (fun i x => (pretty i, x)) l).

(** The own enumerable properties of a value, as object spread
    [{...v}] and [Object.entries(v)] see them. *)
Definition own_props (v : JsVal) : gmap string JsVal :=
  match v with
  | JObj o => o
  | JArr l => indexed l
  | JStr s => indexed (JStr <$> str_units s)
  | _ => ∅
  end.

(** [{ ...a, ...b }]: the properties of [a], overwritten by those of [b]. *)
Definition spread2 (a b : JsVal) : gmap string JsVal :=
  own_props b ∪ own_props a.

(** What [JSON.parse (JSON.stringify v)] reads back for a value sitting
    inside an array or an object. *)
Fixpoint json_image (v : JsVal) : JsVal :=
  match v with
  | JNum n => match num_json n with Some n' => JNum n' | None => JNull end
  | JArr l =>
      JArr (map (fun x => match x with
                          | JUndefined => JNull
                          | _ => json_image x
                          end) l)
  | JObj o =>
      JObj (omap (fun x => match x with
                           | JUndefined => None
                           | _ => Some (json_image x)
                           end) o)
  | _ => v
  end.

(** Property read [v.k] for a name [k] that no built-in prototype defines
    (every name the server reads is of that kind): the own property, or
    [undefined]; reading from [null] or [undefined] throws. *)
Definition js_get (v : JsVal) (k : string) : Res JsVal :=
  match v with
  | JUndefined =>
      throw (JsError ("Cannot read properties of undefined (reading '" +:+ k +:+ "')"))
  | JNull =>
      throw (JsError ("Cannot read properties of null (reading '" +:+ k +:+ "')"))
  | _ => ret (default JUndefined (own_props v !! k))
  end.

(** The same read on a value known not to be [null] or [undefined]
    (destructuring of [req.body || {}], of a checked attachment). *)
Definition js_field (v : JsVal) (k : string) : JsVal :=
  default JUndefined (own_props v !! k).

(** Optional chaining [v?.k]. *)
Definition js_opt_get (v : JsVal) (k : string) : JsVal :=
  match v with
  | JUndefined | JNull => JUndefined
  | _ => js_field v k
  end.

(** [o[k] = v] on an object created by the literal [{}], for a string [v].
    The name ["__proto__"] is the accessor of [Object.prototype]: its setter
    ignores a value that is neither an object nor [null], so no own
    property is created. *)
Definition obj_assign_str (o : gmap string JsVal) (k : string) (v : string)
  : gmap string JsVal :=
  if decide (k = "__proto__") then o else <[k := JStr v]> o.

(** [a || b]. *)
Definition js_or (a b : JsVal) : JsVal := if truthy a then a else b.

(** [typeof v === "object"]. *)
Definition typeof_object (v : JsVal) : bool :=
  match v with
  | JNull | JArr _ | JObj _ => true
  | _ => false
  end.

(** [Array.isArray(v)]. *)
Definition isArray (v : JsVal) : bool :=
  match v with JArr _ => true | _ => false end.

(** ** [base64UrlEncode] *)

Definition base64_alphabet : string :=
  "ABCDEFGHIJKLMNOPQRSTUVWXYZabcdefghijklmnopqrstuvwxyz0123456789+/".

Definition base64_digit (n : N) : ascii :=
  default "A"%char (String.get (N.to_nat n) base64_alphabet).

(** [buffer.toString("base64")] on the bytes of the buffer. *)
Fixpoint base64_of_bytes (bs : list N) : string :=
  match bs with
  | [] => ""
  | [a] =>
      String (base64_digit (a / 4))
        (String (base64_digit ((a mod 4) * 16)) "==")
  | [a; b] =>
      String (base64_digit (a / 4))
        (String (base64_digit ((a mod 4) * 16 + b / 16))
           (String (base64_digit ((b mod 16) * 4)) "="))
  | a :: b :: c :: rest =>
      String (base64_digit (a / 4))
        (String (base64_digit ((a mod 4) * 16 + b / 16))
           (String (base64_digit ((b mod 16) * 4 + c / 64))
              (String (base64_digit (c mod 64)) (base64_of_bytes rest))))
  end%N.

(** [s.replace(/x/g, y)] for single characters [x] and [y]. *)
Fixpoint replace_char (x y : ascii) (s : string) : string :=
  match s with
  | "" => ""
  | String c s' => String (if Ascii.eqb c x then y else c) (replace_char x y s')
  end.

(** [s.replace(/=+$/g, "")]: the trailing run of ["="] is dropped. *)
Fixpoint strip_trailing_eq (s : string) : string :=
  match s with
  | "" => ""
  | String c s' =>
      match strip_trailing_eq s' with
      | "" => if Ascii.eqb c "=" then "" else String c ""
      | r => String c r
      end
  end.

Definition base64UrlEncode (buffer : string) : string :=
  strip_trailing_eq
    (replace_char "/" "_"
       (replace_char "+" "-"
          (base64_of_bytes (N_of_ascii <$> String.list_ascii_of_string buffer)))).

(** ** [formatAddress] *)

Definition formatAddress (address name : JsVal) : JsVal :=
  if negb (truthy address) then JUndefined
  else if negb (truthy name) then address
  else JObj (<["name" := name]> (<["address" := address]> ∅)).

(** ** [parseDataUrl] *)

(** [Canonicalize] of a non-Unicode, case-insensitive regular expression on
    a one-byte character: ASCII letters compare by their upper case, no
    character outside ASCII is identified with an ASCII one. *)
Definition canonicalize (c : ascii) : ascii :=
  let n := nat_of_ascii c in
  if (97 <=? n)%nat && (n <=? 122)%nat then ascii_of_nat (n - 32) else c.

(** Match of a literal, case-insensitively, at the head of [s]: the rest of
    [s] on success. *)
Fixpoint match_literal_ci (lit s : string) : option string :=
  match lit with
  | "" => Some s
  | String a lit' =>
      match s with
      | String b s' =>
          if Ascii.eqb (canonicalize a) (canonicalize b)
          then match_literal_ci lit' s'
          else None
      | "" => None
      end
  end.

(** The longest prefix of [s] free of [";"], and what follows it: how the
    greedy class [[^;]+] splits its input (a shorter prefix is followed by
    a character other than [";"], so backtracking never helps). *)
Fixpoint span_not_semicolon (s : string) : string * string :=
  match s with
  | "" => ("", "")
  | String c s' =>
      if Ascii.eqb c ";" then ("", s)
      else let '(m, r) := span_not_semicolon s' in (String c m, r)
  end.

(** Whether [s] holds a line terminator, which [.] refuses: LF, CR, or
    U+2028 / U+2029, whose UTF-8 forms are the bytes E2 80 A8 and
    E2 80 A9. *)
Fixpoint has_line_terminator (s : string) : bool :=
  match s with
  | "" => false
  | String c s' =>
      Ascii.eqb c (ascii_of_nat 10)
      || Ascii.eqb c (ascii_of_nat 13)
      || (Ascii.eqb c (ascii_of_nat 226)
          && match s' with
             | String c1 (String c2 _) =>
                 Ascii.eqb c1 (ascii_of_nat 128)
                 && (Ascii.eqb c2 (ascii_of_nat 168)
                     || Ascii.eqb c2 (ascii_of_nat 169))
             | _ => false
             end)
      || has_line_terminator s'
  end.

(** [/^data:([^;]+);base64,(.+)$/i.exec(s)]: the two captures. *)
Definition exec_data_url (s : string) : option (string * string) :=
  match match_literal_ci "data:" s with
  | None => None
  | Some s1 =>
      let '(mime, s2) := span_not_semicolon s1 in
      if String.eqb mime "" then None
      else
        match match_literal_ci ";base64," s2 with
        | None => None
        | Some payload =>
            if String.eqb payload "" || has_line_terminator payload
            then None
            else Some (mime, payload)
        end
  end.

Record DataUrl := { du_contentType : string; du_contentBase64 : string }.

Definition parseDataUrl (value : JsVal) : option DataUrl :=
  match value with
  | JStr s =>
      match exec_data_url s with
      | None => None
      | Some (m1, m2) => Some {| du_contentType := m1; du_contentBase64 := m2 |}
      end
  | _ => None
  end.

(** ** [normalizeAttachments] *)

(** [if (v) o.k = v]. *)
Definition set_if_truthy (k : string) (v : JsVal) (o : gmap string JsVal)
  : gmap string JsVal :=
  if truthy v then <[k := v]> o else o.

(** The callback given to [input.map]. *)
Definition normalizeAttachment (index : nat) (attachment : JsVal) : Res JsVal :=
  if negb (truthy attachment) || negb (typeof_object attachment) then
    throw (ValidationError ("attachments[" +:+ pretty index +:+ "] must be an object"))
  else
    let filename := js_field attachment "filename" in
    let content := js_field attachment "content" in
    let contentBase64 := js_field attachment "contentBase64" in
    let contentType := js_field attachment "contentType" in
    let encoding := js_field attachment "encoding" in
    let cid := js_field attachment "cid" in
    let contentDisposition := js_field attachment "contentDisposition" in
    if negb (truthy filename) then
      throw (ValidationError ("attachments[" +:+ pretty index +:+ "].filename is required"))
    else
      let '(finalContent, finalEncoding, finalContentType) :=
        match parseDataUrl content with
        | Some dataUrl =>
            (JStr (du_contentBase64 dataUrl),
             JStr "base64",
             js_or contentType (JStr (du_contentType dataUrl)))
        | None => (content, encoding, contentType)
        end in
      let '(finalContent, finalEncoding) :=
        if negb (truthy finalContent) && truthy contentBase64
        then (contentBase64, js_or finalEncoding (JStr "base64"))
        else (finalContent, finalEncoding) in
      if negb (truthy finalContent) then
        throw (ValidationError
                 ("attachments[" +:+ pretty index +:+ "].content or contentBase64 is required"))
      else
        let normalized := <["content" := finalContent]> (<["filename" := filename]> ∅) in
        let normalized := set_if_truthy "encoding" finalEncoding normalized in
        let normalized := set_if_truthy "contentType" finalContentType normalized in
        let normalized := set_if_truthy "cid" cid normalized in
        let normalized := set_if_truthy "contentDisposition" contentDisposition normalized in
        ret (JObj normalized).

(** [input.map(f)] for a callback that may throw: entries are visited in
    order and the first exception ends the traversal. *)
Fixpoint map_indexed (f : nat -> JsVal -> Res JsVal) (index : nat) (l : list JsVal)
  : Res (list JsVal) :=
  match l with
  | [] => ret []
  | x :: l' =>
      let* y := f index x in
      let* ys := map_indexed f (S index) l' in
      ret (y :: ys)
  end.

Definition normalizeAttachments (input : JsVal) : Res JsVal :=
  if negb (truthy input) then ret JUndefined
  else
    match input with
    | JArr l =>
        let* l' := map_indexed normalizeAttachment 0 l in
        ret (JArr l')
    | _ => throw (ValidationError "attachments must be an array")
    end.

(** ** [normalizeHeaders] *)

(** One turn of the loop over [Object.entries(headers)]; [String(value)]
    may throw. *)
Definition headers_step (key : string) (value : JsVal) (normalized : gmap string JsVal)
  : Res (gmap string JsVal) :=
  match value with
  | JUndefined | JNull => ret normalized
  | _ =>
      let* printed := js_String value in
      ret (obj_assign_str normalized key printed)
  end.

Definition normalizeHeaders (headers : JsVal) : Res JsVal :=
  if negb (truthy headers) then ret JUndefined
  else if negb (typeof_object headers) || isArray headers then
    throw (ValidationError "headers must be an object")
  else
    let* normalized :=
      map_fold (fun key value acc =>
                  let* normalized := acc in headers_step key value normalized)
        (ret ∅) (own_props headers) in
    ret (JObj normalized).

(** ** Process environment and start-up *)

(** [process.env] after [dotenv/config], restricted to the variables the
    programs read, and the module constant [TOKENS_PATH] (the file
    [tokens.json] of the directory [data], resolved against the working
    directory). *)
Record Env := {
  API_KEY : option string;
  FROM_EMAIL : option string;
  GOOGLE_CLIENT_ID : option string;
  GOOGLE_CLIENT_SECRET : option string;
  GOOGLE_REDIRECT_URI : option string;
  TOKENS_PATH : string
}.

(** An environment variable as a JavaScript value. *)
Definition env_val (v : option string) : JsVal :=
  match v with Some s => JStr s | None => JUndefined end.

(** [!VAR] for an environment variable. *)
Definition env_missing (v : option string) : bool := negb (truthy (env_val v)).

Definition AUTH_STATE_TTL_MS : Z := 10 * 60 * 1000.
Definition PORT : Z := 3000.
Definition SCOPES : list string := ["https://www.googleapis.com/auth/gmail.send"].

(** How a program's top level ends: [process.exit(code)] after a line on
    the error stream, or the program goes on ([app.listen] for the server,
    the prompt for the CLI script). *)
Inductive Boot :=
| Exit (code : Z) (stderr : string)
| Started.

(** Top level of [server.js]. *)
Definition server_startup (env : Env) : Boot :=
  if env_missing (API_KEY env) then
    Exit 1 "Missing API_KEY in .env"
  else if env_missing (FROM_EMAIL env) then
    Exit 1 "Missing FROM_EMAIL in .env (use your Gmail address or alias)"
  else Started.

(** Top level of the CLI authorization script. *)
Definition cli_startup (env : Env) : Boot :=
  if env_missing (GOOGLE_CLIENT_ID env)
     || env_missing (GOOGLE_CLIENT_SECRET env)
     || env_missing (GOOGLE_REDIRECT_URI env) then
    Exit 1 "Missing GOOGLE_CLIENT_ID / GOOGLE_CLIENT_SECRET / GOOGLE_REDIRECT_URI in .env"
  else Started.

(** ** The OAuth client *)

(** A [google.auth.OAuth2] object: its three constructor arguments and its
    [credentials] property, which the library starts at [{}] and replaces
    as it refreshes the access token. *)
Record OAuthClient := {
  client_id : string;
  client_secret : string;
  redirect_uri : string;
  credentials : JsVal
}.

Definition setCredentials (c : OAuthClient) (tokens : JsVal) : OAuthClient :=
  {| client_id := client_id c; client_secret := client_secret c;
     redirect_uri := redirect_uri c; credentials := tokens |}.

Definition createOAuthClient (env : Env) : Res OAuthClient :=
  if env_missing (GOOGLE_CLIENT_ID env)
     || env_missing (GOOGLE_CLIENT_SECRET env)
     || env_missing (GOOGLE_REDIRECT_URI env) then
    throw (JsError "Missing Google OAuth env vars")
  else
    ret {| client_id := default "" (GOOGLE_CLIENT_ID env);
           client_secret := default "" (GOOGLE_CLIENT_SECRET env);
           redirect_uri := default "" (GOOGLE_REDIRECT_URI env);
           credentials := JObj ∅ |}.

(** The value of [oAuth2Client.generateAuthUrl(opts)], kept as the call
    that produces it. *)
Record ConsentUrl := {
  url_client : OAuthClient;
  url_access_type : string;
  url_prompt : string;
  url_scope : list string;
  url_state : string
}.

(** ** Server state *)

(** The file at [TOKENS_PATH]: missing, holding text that [JSON.parse]
    refuses (with the parser's message), or holding the JSON text of a
    value. *)
Inductive TokenFile :=
| NoFile
| Unparsable (message : string)
| Parsed (v : JsVal).

(** The module-level mutable state of [server.js] and the part of the file
    system it touches.  [oauthStates] maps a state token to the [createdAt]
    of its record; [fs_fault] is the message of the exception
    [mkdirSync] / [writeFileSync] raise when the directory cannot be
    written. *)
Record Server := {
  cachedAuthClient : option OAuthClient;
  oauthStates : gmap string Z;
  tokens_file : TokenFile;
  fs_fault : option string
}.

Definition initial_server (file : TokenFile) (fault : option string) : Server :=
  {| cachedAuthClient := None; oauthStates := ∅;
     tokens_file := file; fs_fault := fault |}.

Definition with_client (srv : Server) (c : option OAuthClient) : Server :=
  {| cachedAuthClient := c; oauthStates := oauthStates srv;
     tokens_file := tokens_file srv; fs_fault := fs_fault srv |}.

Definition with_states (srv : Server) (m : gmap string Z) : Server :=
  {| cachedAuthClient := cachedAuthClient srv; oauthStates := m;
     tokens_file := tokens_file srv; fs_fault := fs_fault srv |}.

Definition with_file (srv : Server) (f : TokenFile) : Server :=
  {| cachedAuthClient := cachedAuthClient srv; oauthStates := oauthStates srv;
     tokens_file := f; fs_fault := fs_fault srv |}.

(** [fs.mkdirSync(DATA_DIR, ...); fs.writeFileSync(TOKENS_PATH,
    JSON.stringify(merged, null, 2))] for an object [merged]. *)
Definition write_tokens (merged : JsVal) (srv : Server) : Res Server :=
  match fs_fault srv with
  | Some m => throw (JsError m)
  | None => ret (with_file srv (Parsed (json_image merged)))
  end.

(** [JSON.parse(fs.readFileSync(TOKENS_PATH, "utf8"))] on an existing file. *)
Definition read_tokens (f : TokenFile) : Res JsVal :=
  match f with
  | Parsed v => ret v
  | Unparsable m => throw (JsError m)
  | NoFile => throw (JsError "ENOENT: no such file or directory")
  end.

Definition file_exists (f : TokenFile) : bool :=
  match f with NoFile => false | _ => true end.

(** The listener registered by [loadOAuthClient] on the cached client,
    run by the library with the tokens it has just been issued.  The
    listener closes over the client that [loadOAuthClient] cached, so it
    exists only once a client is cached. *)
Definition on_tokens (newTokens : JsVal) (srv : Server) : Res Server :=
  match cachedAuthClient srv with
  | None => ret srv
  | Some oAuth2Client =>
      let* access_token := js_get newTokens "access_token" in
      let* refresh_token := js_get newTokens "refresh_token" in
      if negb (truthy access_token) && negb (truthy refresh_token) then ret srv
      else
        let merged := JObj (spread2 (credentials oAuth2Client) newTokens) in
        match write_tokens merged srv with
        | inr srv' => ret srv'
        | inl _ => ret srv
        end
  end.

Definition loadOAuthClient (env : Env) (srv : Server) : Res (Server * OAuthClient) :=
  match cachedAuthClient srv with
  | Some c => ret (srv, c)
  | None =>
      if negb (file_exists (tokens_file srv)) then
        throw (JsError ("tokens.json not found at " +:+ TOKENS_PATH env
                        +:+ ". Run: npm run auth or visit /auth/start."))
      else
        let* tokens := read_tokens (tokens_file srv) in
        let* refresh_token := js_get tokens "refresh_token" in
        if negb (truthy refresh_token) then
          throw (JsError "tokens.json missing refresh_token. Re-run auth with prompt=consent.")
        else
          let* oAuth2Client := createOAuthClient env in
          let oAuth2Client := setCredentials oAuth2Client tokens in
          ret (with_client srv (Some oAuth2Client), oAuth2Client)
  end.

(** [cleanupStates], with the value read from [Date.now()]. *)
Definition cleanupStates (now : Z) (srv : Server) : Server :=
  with_states srv
    (filter (fun kv => ¬ (now - kv.2 > AUTH_STATE_TTL_MS)%Z) (oauthStates srv)).

(** [oauthStates.get(state)]: the keys of the map are strings, and a [Map]
    compares keys by [SameValueZero]. *)
Definition states_get (m : gmap string Z) (state : JsVal) : option Z :=
  match state with JStr s => m !! s | _ => None end.

(** [oauthStates.delete(state)]. *)
Definition states_delete (m : gmap string Z) (state : JsVal) : gmap string Z :=
  match state with JStr s => delete s m | _ => m end.

(** ** Requests, responses and suspended handlers *)

(** What the handlers read of an Express request: [req.header(name)] (names
    in lower case), [req.query] and [req.body]. *)
Record Request := {
  req_headers : gmap string string;
  req_query : JsVal;
  req_body : JsVal
}.

Inductive Body :=
| Json (v : JsVal)
| Text (s : string)
| Redirect (url : ConsentUrl).

Record Response := { status : Z; body : Body }.

(** A handler, run up to its response or to its next [await].  In both
    cases [srv] is the server state the run leaves behind; a continuation
    is resumed with the outcome of the awaited call and with the server
    state of that moment, which the handlers of other requests may have
    changed in between. *)
Inductive Task :=
| Respond (srv : Server) (res : Response)
| AwaitGetToken (srv : Server) (client : OAuthClient) (code : string)
    (k : Settled JsVal -> Server -> Task)
| AwaitBuildMime (srv : Server) (options : JsVal)
    (k : Settled string -> Server -> Task)
| AwaitGmailSend (srv : Server) (auth : OAuthClient) (userId raw : string)
    (k : Settled JsVal -> Server -> Task).

Definition task_server (t : Task) : Server :=
  match t with
  | Respond srv _ | AwaitGetToken srv _ _ _
  | AwaitBuildMime srv _ _ | AwaitGmailSend srv _ _ _ _ => srv
  end.

(** ** [GET /health] *)

Definition health (req : Request) (srv : Server) : Task :=
  Respond srv {| status := 200; body := Json (JObj {[ "ok" := JBool true ]}) |}.

(** ** [GET /auth/start] *)

Definition hex_digit (n : N) : ascii :=
  default "0"%char (String.get (N.to_nat n) "0123456789abcdef").

(** [buffer.toString("hex")]. *)
Fixpoint hex_of_bytes (bs : list N) : string :=
  match bs with
  | [] => ""
  | b :: bs' =>
      String (hex_digit (b / 16)) (String (hex_digit (b mod 16)) (hex_of_bytes bs'))
  end%N.

(** The handler, with the values the two calls of [Date.now()] return and
    the sixteen bytes [crypto.randomBytes(16)] returns. *)
Definition auth_start (env : Env) (now_sweep now_set : Z) (random : list N)
    (req : Request) (srv : Server) : Task :=
  let srv := cleanupStates now_sweep srv in
  let state := hex_of_bytes random in
  let srv := with_states srv (<[state := now_set]> (oauthStates srv)) in
  match createOAuthClient env with
  | inr oAuth2Client =>
      let url := {| url_client := oAuth2Client; url_access_type := "offline";
                    url_prompt := "consent"; url_scope := SCOPES;
                    url_state := state |} in
      Respond srv {| status := 302; body := Redirect url |}
  | inl e =>
      Respond srv {| status := 500;
                     body := Json (JObj {[ "error" := JStr (exn_message e) ]}) |}
  end.

(** ** [GET /auth/callback] *)

(** The [catch] clause of the handler. *)
Definition callback_error (e : Exn) : Response :=
  match e with
  | ValidationError m => {| status := 400; body := Text m |}
  | JsError m => {| status := 500; body := Text m |}
  end.

(** A name destructured from [req.query || {}]. *)
Definition query_param (req : Request) (k : string) : JsVal :=
  js_field (js_or (req_query req) (JObj ∅)) k.

(** From the test of [code] and [state] to the lookup of the state token. *)
Definition callback_check (req : Request) (srv : Server) : Res JsVal :=
  let code := query_param req "code" in
  let state := query_param req "state" in
  if negb (truthy code) || negb (truthy state) then
    throw (ValidationError "Missing code or state.")
  else
    match states_get (oauthStates srv) state with
    | None => throw (ValidationError "Invalid or expired state.")
    | Some stored => ret state
    end.

(** What follows [await oAuth2Client.getToken(...)] when the promise is
    fulfilled with [result]. *)
Definition callback_store (result : JsVal) (srv : Server) : Res Server :=
  let* tokens := js_get result "tokens" in
  let* existing :=
    (if file_exists (tokens_file srv) then read_tokens (tokens_file srv)
     else ret (JObj ∅)) in
  let merged := spread2 existing tokens in
  if negb (truthy (default JUndefined (merged !! "refresh_token"))) then
    throw (JsError "No refresh token received. Revoke app and retry.")
  else write_tokens (JObj merged) srv.

Definition auth_callback (env : Env) (req : Request) (srv : Server) : Task :=
  if truthy (query_param req "error") then
    Respond srv {| status := 400; body := Text "Authorization failed." |}
  else
    match callback_check req srv with
    | inl e => Respond srv (callback_error e)
    | inr state =>
        let srv := with_states srv (states_delete (oauthStates srv) state) in
        match createOAuthClient env with
        | inl e => Respond srv (callback_error e)
        | inr oAuth2Client =>
            match js_String (query_param req "code") with
            | inl e => Respond srv (callback_error e)
            | inr code =>
                AwaitGetToken srv oAuth2Client code
                  (fun settled srv =>
                     match settled with
                     | Rejected m => Respond srv (callback_error (JsError m))
                     | Fulfilled result =>
                         match callback_store result srv with
                         | inl e => Respond srv (callback_error e)
                         | inr srv' =>
                             Respond srv'
                               {| status := 200;
                                  body := Text "Authorization successful. You can now use /send." |}
                         end
                     end)
            end
        end
    end.

(** ** [POST /send] *)

(** The [catch] clause of the handler. *)
Definition send_error (e : Exn) : Response :=
  match e with
  | ValidationError m =>
      {| status := 400; body := Json (JObj {[ "error" := JStr m ]}) |}
  | JsError m =>
      {| status := 500; body := Json (JObj {[ "error" := JStr m ]}) |}
  end.

(** Normalization and top-level validation of the body: the normalized
    headers and attachments. *)
Definition send_validate (b : JsVal) : Res (JsVal * JsVal) :=
  let* normalizedHeaders := normalizeHeaders (js_field b "headers") in
  let* normalizedAttachments := normalizeAttachments (js_field b "attachments") in
  let hasAttachments :=
    match normalizedAttachments with
    | JArr l => (0 <? length l)%nat
    | _ => false
    end in
  if negb (truthy (js_field b "to")) || negb (truthy (js_field b "subject"))
     || (negb (truthy (js_field b "text")) && negb (truthy (js_field b "html"))
         && negb hasAttachments) then
    throw (ValidationError "Require: to, subject, and text/html or attachments")
  else ret (normalizedHeaders, normalizedAttachments).

(** The options given to [new MailComposer]. *)
Definition mail_options (env : Env) (b normalizedHeaders normalizedAttachments : JsVal)
  : JsVal :=
  let formattedFrom := formatAddress (env_val (FROM_EMAIL env)) (js_field b "fromName") in
  let formattedReplyTo := formatAddress (js_field b "replyTo") (js_field b "replyToName") in
  JObj (list_to_map
          [("to", js_field b "to");
           ("cc", js_field b "cc");
           ("bcc", js_field b "bcc");
           ("replyTo", formattedReplyTo);
           ("from", formattedFrom);
           ("subject", js_field b "subject");
           ("text", js_field b "text");
           ("html", js_field b "html");
           ("headers", normalizedHeaders);
           ("inReplyTo", js_field b "inReplyTo");
           ("references", js_field b "references");
           ("messageId", js_field b "messageId");
           ("priority", js_field b "priority");
           ("attachments", normalizedAttachments)]).

(** [req.body || {}]. *)
Definition body_of (req : Request) : JsVal := js_or (req_body req) (JObj ∅).

(** From the destructuring of the body to the construction of the mail:
    everything the handler does after the key check and before its first
    [await]. *)
Definition send_prepare (env : Env) (req : Request) (srv : Server)
  : Res (Server * OAuthClient * JsVal) :=
  let b := body_of req in
  let* normalized := send_validate b in
  let* loaded := loadOAuthClient env srv in
  ret (loaded.1, loaded.2, mail_options env b normalized.1 normalized.2).

Definition send (env : Env) (req : Request) (srv : Server) : Task :=
  if negb (bool_decide (req_headers req !! "x-api-key" = API_KEY env)) then
    Respond srv {| status := 401;
                   body := Json (JObj {[ "error" := JStr "Unauthorized" ]}) |}
  else
    match send_prepare env req srv with
    | inl e => Respond srv (send_error e)
    | inr (srv, auth, options) =>
        AwaitBuildMime srv options
          (fun settled srv =>
             match settled with
             | Rejected m => Respond srv (send_error (JsError m))
             | Fulfilled mime =>
                 let raw := base64UrlEncode mime in
                 AwaitGmailSend srv auth "me" raw
                   (fun settled srv =>
                      match settled with
                      | Rejected m => Respond srv (send_error (JsError m))
                      | Fulfilled resp =>
                          let data := js_opt_get resp "data" in
                          Respond srv
                            {| status := 200;
                               body := Json (JObj
                                 (<["threadId" := js_opt_get data "threadId"]>
                                    (<["id" := js_opt_get data "id"]> ∅))) |}
                      end)
             end)
    end.

(** ** Running a handler against its surroundings *)

(** The calls a handler makes outside the process. *)
Inductive Call :=
| CallGetToken (client : OAuthClient) (code : string)
| CallBuildMime (options : JsVal)
| CallGmailSend (auth : OAuthClient) (userId raw : string).

(** The surroundings of one handler run: how each awaited call settles,
    and what the rest of the process does to the server state while the
    handler is suspended. *)
Record World := {
  getToken_settles : OAuthClient -> string -> Settled JsVal;
  buildMime_settles : JsVal -> Settled string;
  gmailSend_settles : OAuthClient -> string -> string -> Settled JsVal;
  meanwhile : Server -> Server
}.

(** The run of a task to its response: the final server state, the
    response, and the outside calls in the order they were made. *)
Fixpoint run (w : World) (t : Task) : Server * Response * list Call :=
  match t with
  | Respond srv res => (srv, res, [])
  | AwaitGetToken srv client code k =>
      let '(srv', res, calls) :=
        run w (k (getToken_settles w client code) (meanwhile w srv)) in
      (srv', res, CallGetToken client code :: calls)
  | AwaitBuildMime srv options k =>
      let '(srv', res, calls) :=
        run w (k (buildMime_settles w options) (meanwhile w srv)) in
      (srv', res, CallBuildMime options :: calls)
  | AwaitGmailSend srv auth userId raw k =>
      let '(srv', res, calls) :=
        run w (k (gmailSend_settles w auth userId raw) (meanwhile w srv)) in
      (srv', res, CallGmailSend auth userId raw :: calls)
  end.

(** ** The CLI authorization script, after the prompt *)

(** How the callback given to [rl.question] ends once the exchange of the
    pasted code has settled: the tokens were written to the script's token
    file (with or without the warning about a missing refresh token), or
    the script printed the failure and called [process.exit(1)]. *)
Inductive CliEnd :=
| CliSaved (file : TokenFile) (warned : bool)
| CliFailed (code : Z) (stderr : string).

(** The body of the [try] block after [await oAuth2Client.getToken(...)]
    is fulfilled with [result]: the file written and whether the warning
    was printed.  [fault] is the message of the exception [writeFileSync]
    raises when the file cannot be written. *)
Definition cli_store (result : JsVal) (fault : option string) : Res (TokenFile * bool) :=
  let* tokens := js_get result "tokens" in
  let* refresh_token := js_get tokens "refresh_token" in
  let warned := negb (truthy refresh_token) in
  match fault with
  | Some m => throw (JsError m)
  | None => ret (Parsed (json_image tokens), warned)
  end.

Definition cli_exchanged (settled : Settled JsVal) (fault : option string) : CliEnd :=
  match settled with
  | Rejected m => CliFailed 1 ("Failed to exchange code for tokens: " +:+ m)
  | Fulfilled result =>
      match cli_store result fault with
      | inr (file, warned) => CliSaved file warned
      | inl e => CliFailed 1 ("Failed to exchange code for tokens: " +:+ exn_message e)
      end
  end.

(** ** Character classes used to state properties of the encoders *)

(** The alphabet of URL-safe base64 without padding. *)
Definition url_safe (c : ascii) : bool :=
  let n := nat_of_ascii c in
  (((48 <=? n) && (n <=? 57)) || ((65 <=? n) && (n <=? 90))
   || ((97 <=? n) && (n <=? 122)) || (n =? 45) || (n =? 95))%nat.

(** What the two replacements of [base64UrlEncode] make of one character. *)
Definition url_translate (c : ascii) : ascii :=
  let c1 := if Ascii.eqb c "+" then "-"%char else c in
  if Ascii.eqb c1 "/" then "_"%char else c1.

(** Lower-case hexadecimal digits. *)
Definition hex_char (c : ascii) : bool :=
  let n := nat_of_ascii c in
  (((48 <=? n) && (n <=? 57)) || ((97 <=? n) && (n <=? 102)))%nat.

(** Equality of two strings up to the case of ASCII letters, as the
    regular expression of [parseDataUrl] compares its literals. *)
Fixpoint eqb_ci (a b : string) : bool :=
  match a, b with
  | "", "" => true
  | String x a', String y b' =>
      Ascii.eqb (canonicalize x) (canonicalize y) && eqb_ci a' b'
  | _, _ => false
  end.

End Server.

Arguments JsVal : clear implicits.
Arguments OAuthClient : clear implicits.
Arguments ConsentUrl : clear implicits.
Arguments TokenFile : clear implicits.
Arguments Server : clear implicits.
Arguments Request : clear implicits.
Arguments Body : clear implicits.
Arguments Response : clear implicits.
Arguments Task : clear implicits.
Arguments Call : clear implicits.
Arguments World : clear implicits.
Arguments CliEnd : clear implicits.

(** ** Sample data for the closed examples *)

Definition sample_env : Env :=
  {| API_KEY := Some "s3cret";
     FROM_EMAIL := Some "me@example.com";
     GOOGLE_CLIENT_ID := Some "client-id";
     GOOGLE_CLIENT_SECRET := Some "client-secret";
     GOOGLE_REDIRECT_URI := Some "http://localhost:3000/auth/callback";
     TOKENS_PATH := "/app/data/tokens.json" |}.

(** The API secret and the sender address are set, the OAuth client
    configuration is not. *)
Definition env_without_oauth : Env :=
  {| API_KEY := Some "s3cret";
     FROM_EMAIL := Some "me@example.com";
     GOOGLE_CLIENT_ID := None;
     GOOGLE_CLIENT_SECRET := None;
     GOOGLE_REDIRECT_URI := None;
     TOKENS_PATH := "/app/data/tokens.json" |}.

Definition sample_client : OAuthClient Z :=
  {| client_id := "client-id"; client_secret := "client-secret";
     redirect_uri := "http://localhost:3000/auth/callback";
     credentials := JObj ∅ |}.

Definition fresh_server : Server Z := initial_server NoFile None.

Definition get_request (query : list (string * JsVal Z)) : Request Z :=
  {| req_headers := ∅; req_query := JObj (list_to_map query); req_body := JUndefined |}.

Definition send_request (key : string) (fields : list (string * JsVal Z)) : Request Z :=
  {| req_headers := {[ "x-api-key" := key ]};
     req_query := JObj ∅;
     req_body := JObj (list_to_map fields) |}.

(** The sixteen bytes drawn for the sample authorization attempt and the
    state token they give. *)
Definition sample_random : list N :=
  [0; 17; 34; 51; 68; 85; 102; 119; 136; 153; 170; 187; 204; 221; 238; 255]%N.
Definition sample_state : string := "00112233445566778899aabbccddeeff".

(** The server after one [/auth/start] at time [0]. *)
Definition server_with_pending_state : Server Z :=
  task_server (auth_start sample_env 0 0 sample_random (get_request []) fresh_server).

Definition sample_callback : Request Z :=
  get_request [("code", JStr "4/0AbCd"); ("state", JStr sample_state)].

(** A server whose cached client holds a refresh token. *)
Definition server_with_session : Server Z :=
  {| cachedAuthClient :=
       Some (setCredentials sample_client
               (JObj (list_to_map [("access_token", JStr "ya29.old");
                                   ("refresh_token", JStr "1//refresh")])));
     oauthStates := ∅;
     tokens_file := Parsed (JObj (list_to_map [("access_token", JStr "ya29.old");
                                               ("refresh_token", JStr "1//refresh")]));
     fs_fault := None |}.

(** A refresh that brings an access token only. *)
Definition access_only_tokens : JsVal Z :=
  JObj (list_to_map [("access_token", JStr "ya29.new"); ("expiry_date", JNum 1700000000000%Z)]).

Definition png_attachment : gmap string (JsVal Z) :=
  list_to_map [("filename", JStr "logo.png");
               ("content", JStr "data:image/png;base64,AAAA")].

Definition hex_attachment : JsVal Z :=
  JObj (list_to_map [("filename", JStr "dump.bin");
                     ("contentBase64", JStr "AAAA");
                     ("encoding", JStr "hex")]).

Definition nested_headers : JsVal Z :=
  JObj {[ "X-Meta" := JObj {[ "job" := JStr "daily" ]} ]}.

(** The record a first authorization leaves on file. *)
Definition first_record : JsVal Z :=
  JObj (list_to_map [("access_token", JStr "ya29.first");
                     ("refresh_token", JStr "1//first")]).

(** A server started on that record, before any request. *)
Definition authorized_server : Server Z := initial_server (Parsed first_record) None.

(** Surroundings in which every awaited call is fulfilled (the exchange
    with a refresh token) and nothing else happens meanwhile. *)
Definition quiet_world : World Z :=
  {| getToken_settles := fun _ _ => Fulfilled (JObj {[ "tokens" := first_record ]});
     buildMime_settles := fun _ => Fulfilled "Subject: Hello";
     gmailSend_settles := fun _ _ _ =>
       Fulfilled (JObj {[ "data" := JObj (list_to_map [("id", JStr "18c0ffee");
                                                       ("threadId", JStr "18c0ffee")]) ]});
     meanwhile := fun srv => srv |}.

(** The same, except that the exchange brings an access token only. *)
Definition world_without_refresh_token : World Z :=
  {| getToken_settles := fun _ _ => Fulfilled (JObj {[ "tokens" := access_only_tokens ]});
     buildMime_settles := buildMime_settles quiet_world;
     gmailSend_settles := gmailSend_settles quiet_world;
     meanwhile := fun srv => srv |}.

Definition hello_request : Request Z :=
  send_request "s3cret" [("to", JStr "you@example.com"); ("subject", JStr "Hello");
                         ("text", JStr "Sent from the API")].


(** Headers with a number and a nested array among the values. *)
Definition mixed_headers : gmap string (JsVal Z) :=
  list_to_map [("X-Job-Id", JStr "daily-report"); ("X-Attempt", JNum 3%Z);
               ("X-Tags", JArr [JStr "a"; JNull; JStr "b"]); ("X-Skip", JNull)].

(** * Properties *)

Section Properties.

Context {number : Type} `{JsEngine number}.

Implicit Types (v x y : JsVal number) (o a : gmap string (JsVal number)) (k : string).

(** ** Small facts about the helpers *)

Lemma lookup_set_if_truthy_ne k k' v o :
  k ≠ k' → set_if_truthy k v o !! k' = o !! k'.
Proof.
  intros Hne. unfold set_if_truthy.
  destruct (truthy v); [by rewrite lookup_insert_ne | done].
Qed.

Lemma lookup_set_if_truthy_eq k v o :
  o !! k = None →
  set_if_truthy k v o !! k = if truthy v then Some v else None.
Proof.
  intros Hk. unfold set_if_truthy.
  destruct (truthy v); [by rewrite lookup_insert_eq | done].
Qed.

Lemma truthy_JStr s : truthy (JStr s) = true ↔ s ≠ "".
Proof.
  simpl. rewrite negb_true_iff. apply String.eqb_neq.
Qed.

Lemma js_or_truthy x y : truthy y = true → truthy (js_or x y) = true.
Proof. unfold js_or. by destruct (truthy x) eqn:E. Qed.

(** The class [[^;]+] stops exactly at the first [";"]. *)
Lemma span_not_semicolon_app mime rest :
  ";"%char ∉ String.list_ascii_of_string mime →
  span_not_semicolon (mime +:+ String ";" rest) = (mime, String ";" rest).
Proof.
  induction mime as [|c mime IH]; simpl; intros Hnot.
  - reflexivity.
  - destruct (Ascii.eqb c ";") eqn:E.
    + apply Ascii.eqb_eq in E. subst c. exfalso. apply Hnot. left.
    + rewrite IH; [done|]. intros Hin. apply Hnot. by right.
Qed.


(** A match of the regular expression only happens on a non-empty string
    and captures a non-empty payload. *)
Lemma parseDataUrl_Some v du :
  parseDataUrl v = Some du →
  truthy v = true ∧ truthy (JStr (du_contentBase64 du)) = true.
Proof.
  destruct v as [| | | |s| |]; simpl; try discriminate.
  unfold exec_data_url.
  destruct s as [|c s]; [discriminate|].
  destruct (match_literal_ci "data:" (String c s)) as [s1|]; [|discriminate].
  destruct (span_not_semicolon s1) as [mime s2].
  destruct (String.eqb mime ""); [discriminate|].
  destruct (match_literal_ci ";base64," s2) as [payload|]; [|discriminate].
  destruct (String.eqb payload "") eqn:E; [discriminate|].
  destruct (has_line_terminator payload); [discriminate|].
  simpl. intros [= <-]. simpl. by rewrite E.
Qed.

(** The loop of [normalizeHeaders]. *)
Local Notation "'headers_loop'" :=
  (map_fold (fun key value acc =>
               let* normalized := acc in headers_step key value normalized)
     (ret ∅)).

(** The loop fails, with the [TypeError] of [String], exactly when some
    value cannot be converted; otherwise it builds the headers key by
    key. *)
Lemma headers_loop_spec o :
  ((∃ k v, o !! k = Some v ∧ String_throws v = true)
   ∧ headers_loop o = throw (JsError "Cannot convert object to primitive value"))
  ∨ ((∀ k v, o !! k = Some v → String_throws v = false)
     ∧ ∃ n, headers_loop o = ret n
            ∧ n !! "__proto__" = None
            ∧ ∀ k, k ≠ "__proto__" →
                   n !! k = match o !! k with
                            | None | Some JUndefined | Some JNull => None
                            | Some v => Some (JStr (String_value v))
                            end).
Proof.
  apply (map_fold_weak_ind
           (fun (r : Res (gmap string (JsVal number))) (m : gmap string (JsVal number)) =>
              ((∃ k v, m !! k = Some v ∧ String_throws v = true)
               ∧ r = throw (JsError "Cannot convert object to primitive value"))
              ∨ ((∀ k v, m !! k = Some v → String_throws v = false)
                 ∧ ∃ n, r = ret n
                        ∧ n !! "__proto__" = None
                        ∧ ∀ k, k ≠ "__proto__" →
                               n !! k = match m !! k with
                                        | None | Some JUndefined | Some JNull => None
                                        | Some v => Some (JStr (String_value v))
                                        end))).
  - right. split; [intros k v Hk; by rewrite lookup_empty in Hk|].
    exists ∅. split; [done|]. split; [done|]. intros k _. by rewrite !lookup_empty.
  - intros i x m r Hi [[(k & v & Hk & Hv) ->]|(Hall & n & -> & Hproto & Hn)].
    + left. split; [|done]. exists k, v. split; [|done].
      rewrite lookup_insert_ne; [done|]. intros ->. by rewrite Hi in Hk.
    + cbn [bind ret]. destruct (String_throws x) eqn:Hx.
      * left. split; [exists i, x; by rewrite lookup_insert_eq|].
        unfold headers_step, js_String. rewrite Hx. by destruct x.
      * right. split.
        { intros k v. rewrite lookup_insert_Some. intros [[<- <-]|[_ Hk]]; [done|].
          by apply (Hall k). }
        assert (Hstep : headers_step i x n =
                  ret (match x with
                       | JUndefined | JNull => n
                       | _ => obj_assign_str n i (String_value x)
                       end)).
        { unfold headers_step, js_String. rewrite Hx. by destruct x. }
        rewrite Hstep. eexists. split; [reflexivity|]. split.
        { unfold obj_assign_str. destruct x; try done; case_decide; try done;
            by rewrite lookup_insert_ne. }
        intros k Hk. destruct (decide (i = k)) as [->|Hne].
        -- rewrite lookup_insert_eq. specialize (Hn k Hk). rewrite Hi in Hn.
           unfold obj_assign_str.
           destruct x; try done; rewrite decide_False by done;
             by rewrite lookup_insert_eq.
        -- rewrite lookup_insert_ne by done. rewrite <- (Hn k Hk).
           unfold obj_assign_str.
           destruct x; try done; case_decide; try done;
             by rewrite lookup_insert_ne.
Qed.

(** The object assembled at the end of the [map] callback, field by
    field. *)
Lemma normalized_lookup filename content encoding contentType cid disposition :
  let o := set_if_truthy "contentDisposition" disposition
             (set_if_truthy "cid" cid
                (set_if_truthy "contentType" contentType
                   (set_if_truthy "encoding" encoding
                      (<["content" := content]> (<["filename" := filename]> ∅))))) in
  o !! "filename" = Some filename
  ∧ o !! "content" = Some content
  ∧ o !! "encoding" = (if truthy encoding then Some encoding else None)
  ∧ o !! "contentType" = (if truthy contentType then Some contentType else None).
Proof.
  intros o. subst o. repeat split.
  - by rewrite !lookup_set_if_truthy_ne.
  - by rewrite !lookup_set_if_truthy_ne.
  - rewrite !lookup_set_if_truthy_ne by done.
    by rewrite lookup_set_if_truthy_eq.
  - rewrite !lookup_set_if_truthy_ne by done.
    rewrite lookup_set_if_truthy_eq; [done|].
    by rewrite lookup_set_if_truthy_ne.
Qed.

(** Reads the [content] and [encoding] of the object assembled in the
    goal. *)
Ltac normalized_fields Hc He :=
  match goal with
  | |- context [set_if_truthy "contentDisposition" ?d
                  (set_if_truthy "cid" ?c
                     (set_if_truthy "contentType" ?t
                        (set_if_truthy "encoding" ?e
                           (<["content" := ?x]> (<["filename" := ?f]> ∅)))))] =>
      pose proof (normalized_lookup f x e t c d) as (_ & Hc & He & _);
      cbv zeta in Hc, He
  end.

(** ** Attachments *)


(** C7 (amended). An entry that is not an object is refused as such.  For
    an entry that is an object: without a filename it is refused with the
    missing-filename error; otherwise its content is the payload of a
    data-URI [content] (encoding base64), else a directly supplied
    [content] (the encoding is the supplied one, if any), else
    [contentBase64], with the encoding that was supplied and base64 only
    when none was; with no source it is refused with the missing-content
    error.  Several sources at once are never an error. *)
Theorem C7_attachment_sources (index : nat) (attachment : JsVal number) :
  let field := js_field attachment in
  let is_object := truthy attachment && typeof_object attachment in
  (is_object = false →
     normalizeAttachment index attachment =
       throw (ValidationError ("attachments[" +:+ pretty index +:+ "] must be an object")))
  ∧ (is_object = true → truthy (field "filename") = false →
     normalizeAttachment index attachment =
       throw (ValidationError ("attachments[" +:+ pretty index +:+ "].filename is required")))
  ∧ (is_object = true → truthy (field "filename") = true →
     (∀ du, parseDataUrl (field "content") = Some du →
        ∃ o, normalizeAttachment index attachment = ret (JObj o)
             ∧ o !! "content" = Some (JStr (du_contentBase64 du))
             ∧ o !! "encoding" = Some (JStr "base64"))
     ∧ (parseDataUrl (field "content") = None → truthy (field "content") = true →
        ∃ o, normalizeAttachment index attachment = ret (JObj o)
             ∧ o !! "content" = Some (field "content")
             ∧ o !! "encoding" =
                 (if truthy (field "encoding") then Some (field "encoding") else None))
     ∧ (truthy (field "content") = false → truthy (field "contentBase64") = true →
        ∃ o, normalizeAttachment index attachment = ret (JObj o)
             ∧ o !! "content" = Some (field "contentBase64")
             ∧ o !! "encoding" =
                 Some (if truthy (field "encoding") then field "encoding"
                       else JStr "base64"))
     ∧ (truthy (field "content") = false → truthy (field "contentBase64") = false →
        normalizeAttachment index attachment =
          throw (ValidationError
                   ("attachments[" +:+ pretty index
                    +:+ "].content or contentBase64 is required")))).
Proof.
  intros field is_object. subst field is_object.
  unfold normalizeAttachment.
  split; [|split].
  - intros Hobj. apply andb_false_iff in Hobj.
    destruct Hobj as [-> | ->]; [done | by rewrite orb_true_r].
  - intros Hobj Hfile. apply andb_true_iff in Hobj as [-> ->].
    cbn [negb orb]. by rewrite Hfile.
  - intros Hobj Hfile. apply andb_true_iff in Hobj as [-> ->].
    cbn [negb orb]. rewrite Hfile. cbn [negb].
    split; [|split; [|split]].
    + intros du Hdu. rewrite Hdu.
      destruct (parseDataUrl_Some _ _ Hdu) as [_ Hpt].
      rewrite Hpt. cbn [negb andb]. rewrite Hpt. cbn [negb].
      eexists. split; [reflexivity|].
      normalized_fields Hc He. by split.
    + intros Hdu Hct. rewrite Hdu, Hct. cbn [negb andb]. rewrite Hct. cbn [negb].
      eexists. split; [reflexivity|].
      normalized_fields Hc He. by split.
    + intros Hct Hb64.
      destruct (parseDataUrl (js_field attachment "content")) as [du|] eqn:Hdu.
      { apply parseDataUrl_Some in Hdu as [Ht _]. congruence. }
      rewrite Hct, Hb64. cbn [negb andb]. rewrite Hb64. cbn [negb].
      eexists. split; [reflexivity|].
      normalized_fields Hc He. split; [exact Hc|].
      rewrite He. rewrite js_or_truthy by done. unfold js_or.
      by destruct (truthy (js_field attachment "encoding")).
    + intros Hct Hb64.
      destruct (parseDataUrl (js_field attachment "content")) as [du|] eqn:Hdu.
      { apply parseDataUrl_Some in Hdu as [Ht _]. congruence. }
      rewrite Hct, Hb64. cbn [negb andb]. by rewrite Hct.
Qed.

(** ** Headers *)

(** C9 (amended). [normalizeHeaders] returns [undefined] for a falsy input;
    for a truthy input that is not a non-array object it fails with the
    invalid-headers error, nested values being accepted.  For an object,
    when [String] converts every value, it returns an object that, at every
    key other than ["__proto__"], has no entry where the input has [null],
    [undefined] or no entry, and has [String(value)] where the input has
    another value; when [String] cannot convert one of the values, it fails
    with the [TypeError] of the conversion. *)
Theorem C9_normalizeHeaders (headers : JsVal number) :
  (truthy headers = false → normalizeHeaders headers = ret JUndefined)
  ∧ (truthy headers = true → (∀ o, headers ≠ JObj o) →
     normalizeHeaders headers = throw (ValidationError "headers must be an object"))
  ∧ (∀ o, headers = JObj o →
     (∀ k x, o !! k = Some x → String_throws x = false) →
     ∃ n, normalizeHeaders headers = ret (JObj n)
          ∧ ∀ k, k ≠ "__proto__" →
                 n !! k = match o !! k with
                          | None | Some JUndefined | Some JNull => None
                          | Some v => Some (JStr (String_value v))
                          end)
  ∧ (∀ o, headers = JObj o →
     (∃ k x, o !! k = Some x ∧ String_throws x = true) →
     normalizeHeaders headers =
       throw (JsError "Cannot convert object to primitive value")).
Proof.
  unfold normalizeHeaders. split; [|split; [|split]].
  - by intros ->.
  - intros Ht Hno. rewrite Ht. cbn [negb].
    destruct headers as [| | | | | |m]; try discriminate Ht; try reflexivity.
    exfalso. by apply (Hno m).
  - intros o -> Hall. cbn [truthy typeof_object isArray negb orb own_props].
    destruct (headers_loop_spec o) as [[(k & x & Hk & Hx) _]|(_ & n & -> & _ & Hn)].
    + by rewrite (Hall k x Hk) in Hx.
    + exists n. by split.
  - intros o -> (k & x & Hk & Hx).
    cbn [truthy typeof_object isArray negb orb own_props].
    destruct (headers_loop_spec o) as [[_ ->]|(Hall & _)]; [done|].
    by rewrite (Hall k x Hk) in Hx.
Qed.

(** ** Credentials *)

Lemma json_image_JObj o :
  json_image (JObj o) =
    JObj (omap (fun x => match x with
                         | JUndefined => None
                         | _ => Some (json_image x)
                         end) o).
Proof. reflexivity. Qed.

(** A property that is not [undefined] is read back from the file. *)
Lemma lookup_persisted o k x :
  o !! k = Some x → x ≠ JUndefined →
  ∃ o', json_image (JObj o) = JObj o' ∧ o' !! k = Some (json_image x).
Proof.
  intros Hk Hx. rewrite json_image_JObj. eexists. split; [reflexivity|].
  rewrite lookup_omap, Hk. by destruct x.
Qed.

(** [{ ...a, ...b }] keeps the property of [a] that [b] does not have. *)
Lemma spread2_keeps x y k :
  own_props y !! k = None → spread2 x y !! k = own_props x !! k.
Proof. intros Hy. unfold spread2. by rewrite lookup_union_r. Qed.

Lemma truthy_not_undefined x : truthy x = true → x ≠ JUndefined.
Proof. by intros Ht ->. Qed.

(** Reading a property of a value that has a truthy property. *)
Lemma js_get_defined x k k' :
  truthy (js_field x k') = true → js_get x k = ret (js_field x k).
Proof. by destruct x. Qed.

(** C1. When newly issued tokens that have no [refresh_token] property are
    merged over a record that has one, the record written to the token file
    still has it: in the listener of the cached client, which merges over
    the client's credentials, and in the callback of the browser flow,
    which merges over the record read from the file. *)
Theorem C1_refresh_token_preserved :
  (∀ (srv : Server number) client newTokens r,
     cachedAuthClient srv = Some client →
     own_props (credentials client) !! "refresh_token" = Some r →
     r ≠ JUndefined →
     own_props newTokens !! "refresh_token" = None →
     truthy (js_field newTokens "access_token") = true →
     fs_fault srv = None →
     ∃ o, on_tokens newTokens srv = ret (with_file srv (Parsed (JObj o)))
          ∧ o !! "refresh_token" = Some (json_image r))
  ∧ (∀ (srv : Server number) result tokens existing r,
     tokens_file srv = Parsed existing →
     own_props existing !! "refresh_token" = Some r →
     truthy r = true →
     js_get result "tokens" = ret tokens →
     own_props tokens !! "refresh_token" = None →
     fs_fault srv = None →
     ∃ o, callback_store result srv = ret (with_file srv (Parsed (JObj o)))
          ∧ o !! "refresh_token" = Some (json_image r)).
Proof.
  split.
  - intros srv client newTokens r Hclient Hr Hdef Hnew Haccess Hfs.
    unfold on_tokens. rewrite Hclient.
    rewrite !(js_get_defined _ _ _ Haccess). cbn [bind ret].
    rewrite Haccess. cbn [negb andb].
    unfold write_tokens. rewrite Hfs.
    destruct (lookup_persisted (spread2 (credentials client) newTokens)
                "refresh_token" r) as (o & -> & Ho); [|done|by exists o].
    by rewrite spread2_keeps.
  - intros srv result tokens existing r Hfile Hr Ht Htok Hnew Hfs.
    unfold callback_store. rewrite Htok. cbn [bind ret].
    rewrite Hfile. cbn [file_exists read_tokens bind ret].
    rewrite spread2_keeps, Hr by done.
    change (default JUndefined (Some r)) with r. rewrite Ht. cbn [negb].
    unfold write_tokens. rewrite Hfs.
    destruct (lookup_persisted (spread2 existing tokens) "refresh_token" r)
      as (o & -> & Ho); [|by apply truthy_not_undefined|by exists o].
    by rewrite spread2_keeps.
Qed.

(** ** The pending authorization states *)

(** A callback that names a pending state and carries a code reaches the
    exchange of the code, with the state consumed (or, the state consumed,
    fails to convert the code to a string). *)
Lemma auth_callback_pending env (req : Request number) (srv : Server number) s created client :
  truthy (query_param req "error") = false →
  truthy (query_param req "code") = true →
  query_param req "state" = JStr s →
  s ≠ "" →
  oauthStates srv !! s = Some created →
  createOAuthClient env = ret client →
  match js_String (query_param req "code") with
  | inr code =>
      ∃ resume, auth_callback env req srv =
                  AwaitGetToken (with_states srv (delete s (oauthStates srv))) client
                    code resume
  | inl e =>
      auth_callback env req srv =
        Respond (with_states srv (delete s (oauthStates srv))) (callback_error e)
  end.
Proof.
  intros Herr Hcode Hstate Hs Hpending Hclient.
  unfold auth_callback, callback_check.
  rewrite Herr, Hcode, Hstate.
  apply truthy_JStr in Hs. rewrite Hs. cbn [negb orb states_get].
  rewrite Hpending. cbn [ret states_delete]. rewrite Hclient.
  destruct (js_String (query_param req "code")) as [e|code]; [reflexivity|].
  eexists. reflexivity.
Qed.

(** A callback that names a state absent from the pending set is refused. *)
Lemma auth_callback_unknown env (req : Request number) (srv : Server number) s :
  truthy (query_param req "error") = false →
  truthy (query_param req "code") = true →
  query_param req "state" = JStr s →
  s ≠ "" →
  oauthStates srv !! s = None →
  auth_callback env req srv =
    Respond srv {| status := 400; body := Text "Invalid or expired state." |}.
Proof.
  intros Herr Hcode Hstate Hs Habsent.
  unfold auth_callback, callback_check.
  rewrite Herr, Hcode, Hstate.
  apply truthy_JStr in Hs. rewrite Hs. cbn [negb orb states_get].
  by rewrite Habsent.
Qed.

(** C2 (what the code does). A callback whose state token is in the pending
    set is accepted whatever the age of the token: the handler does not
    read the clock, and a token older than the TTL is refused only if a
    later [/auth/start] has swept it.  The token is consumed and the code,
    converted to a string, is sent to the exchange. *)
Theorem C2_expired_state_accepted env (req : Request number) (srv : Server number)
    s created (now : Z) client :
  truthy (query_param req "error") = false →
  truthy (query_param req "code") = true →
  query_param req "state" = JStr s →
  s ≠ "" →
  oauthStates srv !! s = Some created →
  (now - created > AUTH_STATE_TTL_MS)%Z →
  createOAuthClient env = ret client →
  match js_String (query_param req "code") with
  | inr code =>
      ∃ resume, auth_callback env req srv =
                  AwaitGetToken (with_states srv (delete s (oauthStates srv))) client
                    code resume
  | inl e =>
      auth_callback env req srv =
        Respond (with_states srv (delete s (oauthStates srv))) (callback_error e)
  end.
Proof.
  intros Herr Hcode Hstate Hs Hpending _ Hclient.
  by apply (auth_callback_pending env req srv s created client).
Qed.

(** Storing the exchanged tokens leaves the pending states alone. *)
Lemma callback_store_states result (srv srv' : Server number) :
  callback_store result srv = ret srv' → oauthStates srv' = oauthStates srv.
Proof.
  unfold callback_store, write_tokens.
  destruct (js_get result "tokens") as [e|tokens]; [discriminate|].
  cbn [bind].
  destruct (if file_exists (tokens_file srv) then read_tokens (tokens_file srv)
            else ret (JObj ∅)) as [e|existing]; [discriminate|].
  cbn [bind].
  destruct (negb _); [discriminate|].
  destruct (fs_fault srv); [discriminate|].
  by intros [= <-].
Qed.

(** C3. A callback that carries a code and names a pending state removes
    the state from the pending set before it suspends on the exchange of
    the code (or before it answers, when no OAuth client can be built);
    nothing it does after the exchange, whatever the outcome, puts the state
    back; and a later callback that names the same state, met with the state
    still absent, is answered 400 "Invalid or expired state.". *)
Theorem C3_state_single_use env (req : Request number) (srv : Server number) s created :
  truthy (query_param req "error") = false →
  truthy (query_param req "code") = true →
  query_param req "state" = JStr s →
  s ≠ "" →
  oauthStates srv !! s = Some created →
  let first := auth_callback env req srv in
  oauthStates (task_server first) = delete s (oauthStates srv)
  ∧ match first with
    | Respond _ _ | AwaitGetToken _ _ _ _ => True
    | _ => False
    end
  ∧ (∀ w : World number,
       (∀ srv0, oauthStates srv0 !! s = None →
                oauthStates (meanwhile w srv0) !! s = None) →
       oauthStates (run w first).1.1 !! s = None)
  ∧ (∀ (second : Request number) (srv2 : Server number),
       truthy (query_param second "error") = false →
       truthy (query_param second "code") = true →
       query_param second "state" = JStr s →
       oauthStates srv2 !! s = None →
       auth_callback env second srv2 =
         Respond srv2 {| status := 400; body := Text "Invalid or expired state." |}).
Proof.
  intros Herr Hcode Hstate Hs Hpending first.
  assert (Hfirst : first = auth_callback env req srv) by reflexivity.
  clearbody first.
  unfold auth_callback, callback_check in Hfirst.
  rewrite Herr, Hcode, Hstate in Hfirst.
  pose proof Hs as Hst. apply truthy_JStr in Hst. rewrite Hst in Hfirst.
  cbn [negb orb states_get] in Hfirst. rewrite Hpending in Hfirst.
  cbn [ret states_delete] in Hfirst.
  assert (Hsecond : ∀ (second : Request number) (srv2 : Server number),
             truthy (query_param second "error") = false →
             truthy (query_param second "code") = true →
             query_param second "state" = JStr s →
             oauthStates srv2 !! s = None →
             auth_callback env second srv2 =
               Respond srv2 {| status := 400; body := Text "Invalid or expired state." |}).
  { intros second srv2 H1 H2 H3 H4. by apply auth_callback_unknown with s. }
  destruct (createOAuthClient env) as [e|client];
    [|destruct (js_String (query_param req "code")) as [e|code]]; subst first.
  - repeat split; try done.
    intros w _. cbn. apply lookup_delete_eq.
  - repeat split; try done.
    intros w _. cbn. apply lookup_delete_eq.
  - repeat split; try done.
    intros w Hmean. cbn [run].
    set (srv1 := with_states srv (delete s (oauthStates srv))).
    assert (Hgone : oauthStates (meanwhile w srv1) !! s = None).
    { apply Hmean. cbn. apply lookup_delete_eq. }
    destruct (getToken_settles w client _) as [result|m]; [|exact Hgone].
    destruct (callback_store result (meanwhile w srv1)) as [e|srv'] eqn:Hstore;
      [exact Hgone|].
    cbn. by rewrite (callback_store_states _ _ _ Hstore).
Qed.

Lemma hex_digit_char n : hex_char (hex_digit n) = true.
Proof.
  unfold hex_digit. generalize (N.to_nat n). intros k.
  do 16 (destruct k as [|k]; [vm_compute; reflexivity|]).
  by destruct k.
Qed.

Lemma hex_digit_inj n m :
  (n < 16)%N → (m < 16)%N → hex_digit n = hex_digit m → n = m.
Proof.
  intros Hn Hm. unfold hex_digit. intros Heq.
  apply N2Nat.inj.
  assert (Hk : N.to_nat n < 16) by lia.
  assert (Hj : N.to_nat m < 16) by lia.
  revert Heq Hk Hj. generalize (N.to_nat n) (N.to_nat m). intros k j.
  do 16 (destruct k as [|k];
         [do 16 (destruct j as [|j]; [first [reflexivity | discriminate]|]);
          intros _ _ ?; lia|]).
  intros _ ?; lia.
Qed.

Lemma hex_of_bytes_length (bs : list N) :
  String.length (hex_of_bytes bs) = 2 * length bs.
Proof.
  induction bs as [|b bs IH]; [done|]. cbn [hex_of_bytes String.length length].
  rewrite IH. lia.
Qed.

(** Different bytes give different tokens. *)
Lemma hex_of_bytes_inj (bs bs' : list N) :
  Forall (fun b => (b < 256)%N) bs → Forall (fun b => (b < 256)%N) bs' →
  hex_of_bytes bs = hex_of_bytes bs' → bs = bs'.
Proof.
  revert bs'. induction bs as [|b bs IH]; intros [|b' bs'] Hbs Hbs' Heq; try done.
  cbn [hex_of_bytes] in Heq. injection Heq as Hhi Hlo Hrest.
  inversion Hbs as [|? ? Hb Hbs0]; subst.
  inversion Hbs' as [|? ? Hb' Hbs0']; subst.
  apply hex_digit_inj in Hhi; [|by apply N.Div0.div_lt_upper_bound..].
  apply hex_digit_inj in Hlo; [|by apply N.mod_lt..].
  f_equal; [|by apply IH].
  rewrite (N.div_mod b 16), (N.div_mod b' 16) by done. by rewrite Hhi, Hlo.
Qed.

(** C10 (amended). Whatever the request, [/auth/start] sweeps the states
    older than the TTL and registers, with the current time, the token
    drawn for this attempt: the hexadecimal form of the random bytes, two
    digits per byte, different bytes giving different tokens.  It then
    redirects to the consent URL built for that token when the OAuth client
    is configured, and answers 500 with the failure when it is not.
    Nothing of the request (no key, no query parameter, no header) is
    read. *)
Theorem C10_auth_start_unauthenticated env (now_sweep now_set : Z) (random : list N)
    (req : Request number) (srv : Server number) :
  let state := hex_of_bytes random in
  ∃ srv' res,
    auth_start env now_sweep now_set random req srv = Respond srv' res
    ∧ oauthStates srv' !! state = Some now_set
    ∧ (∀ s, s ≠ state →
            oauthStates srv' !! s =
              match oauthStates srv !! s with
              | Some created =>
                  if decide (now_sweep - created > AUTH_STATE_TTL_MS)%Z
                  then None else Some created
              | None => None
              end)
    ∧ cachedAuthClient srv' = cachedAuthClient srv
    ∧ tokens_file srv' = tokens_file srv
    ∧ (∀ client, createOAuthClient env = ret client →
         res = {| status := 302;
                  body := Redirect {| url_client := client; url_access_type := "offline";
                                      url_prompt := "consent"; url_scope := SCOPES;
                                      url_state := state |} |})
    ∧ (∀ e, createOAuthClient (number := number) env = throw e →
         res = {| status := 500;
                  body := Json (JObj {[ "error" := JStr (exn_message e) ]}) |})
    ∧ String.length state = 2 * length random
    ∧ (∀ random', Forall (fun b => (b < 256)%N) random →
                  Forall (fun b => (b < 256)%N) random' →
                  hex_of_bytes random' = state → random' = random)
    ∧ ∀ other : Request number,
        auth_start env now_sweep now_set random other srv =
          auth_start env now_sweep now_set random req srv.
Proof.
  intros state.
  assert (Hsweep : ∀ s, s ≠ state →
            (<[state := now_set]> (oauthStates (cleanupStates now_sweep srv))) !! s =
              match oauthStates srv !! s with
              | Some created =>
                  if decide (now_sweep - created > AUTH_STATE_TTL_MS)%Z
                  then None else Some created
              | None => None
              end).
  { intros s Hs. rewrite lookup_insert_ne by done. unfold cleanupStates. cbn.
    rewrite map_lookup_filter.
    destruct (oauthStates srv !! s) as [created|]; [|done].
    cbn. case_guard; case_decide; done. }
  unfold auth_start. fold state.
  destruct (createOAuthClient env) as [e|client] eqn:Hclient.
  - eexists _, _. split; [reflexivity|]. cbn.
    split; [by rewrite lookup_insert_eq|]. split; [exact Hsweep|].
    split; [done|]. split; [done|]. split; [done|].
    split; [by intros e' [= <-]|].
    split; [apply hex_of_bytes_length|].
    split; [|done]. intros random' Hr Hr' Heq. symmetry. by apply hex_of_bytes_inj.
  - eexists _, _. split; [reflexivity|]. cbn.
    split; [by rewrite lookup_insert_eq|]. split; [exact Hsweep|].
    split; [done|]. split; [done|]. split; [by intros c [= <-]|].
    split; [done|].
    split; [apply hex_of_bytes_length|].
    split; [|done]. intros random' Hr Hr' Heq. symmetry. by apply hex_of_bytes_inj.
Qed.

(** ** Start-up configuration *)

(** C4 (amended). The server aborts at start-up, with exit code 1, exactly
    when the API secret or the sender address is missing; the OAuth client
    configuration plays no part in its start-up.  When the client id, the
    client secret or the redirect URI is missing, building the OAuth client
    fails, so [/auth/start] answers 500 with that failure on every request,
    and only the CLI authorization script aborts at start-up. *)
Theorem C4_startup_configuration env :
  let oauth_missing :=
    env_missing (GOOGLE_CLIENT_ID env)
    || env_missing (GOOGLE_CLIENT_SECRET env)
    || env_missing (GOOGLE_REDIRECT_URI env) in
  (server_startup env = Started
   ↔ env_missing (API_KEY env) = false ∧ env_missing (FROM_EMAIL env) = false)
  ∧ (∀ code msg, server_startup env = Exit code msg → code = 1%Z)
  ∧ (oauth_missing = true →
       createOAuthClient (number := number) env
         = throw (JsError "Missing Google OAuth env vars")
       ∧ (∀ now_sweep now_set random (req : Request number) (srv : Server number),
            ∃ srv',
              auth_start env now_sweep now_set random req srv =
                Respond srv'
                  {| status := 500;
                     body := Json (JObj {[ "error" := JStr "Missing Google OAuth env vars" ]}) |})
       ∧ cli_startup (number := number) env =
           Exit 1 "Missing GOOGLE_CLIENT_ID / GOOGLE_CLIENT_SECRET / GOOGLE_REDIRECT_URI in .env")
  ∧ (oauth_missing = false →
       (∃ client, createOAuthClient (number := number) env = ret client)
       ∧ cli_startup (number := number) env = Started).
Proof.
  intros oauth_missing. subst oauth_missing.
  unfold server_startup, createOAuthClient, cli_startup, auth_start.
  split; [|split; [|split]].
  - destruct (env_missing (API_KEY env)), (env_missing (FROM_EMAIL env));
      split; try done; intros [? ?]; done.
  - intros code msg.
    destruct (env_missing (API_KEY env)), (env_missing (FROM_EMAIL env));
      intros [= <- _] || intros [=]; done.
  - intros Hmiss. unfold createOAuthClient. rewrite Hmiss.
    split; [done|]. split; [|done].
    intros. eexists. reflexivity.
  - intros Hmiss. unfold createOAuthClient. rewrite Hmiss.
    split; [|done]. eexists. reflexivity.
Qed.

(** ** [POST /send] *)

(** The run of the [/send] handler, step by step. *)
Lemma run_send (w : World number) env (req : Request number) (srv : Server number) :
  run w (send env req srv) =
    if negb (bool_decide (req_headers req !! "x-api-key" = API_KEY env)) then
      (srv, {| status := 401; body := Json (JObj {[ "error" := JStr "Unauthorized" ]}) |}, [])
    else
      match send_prepare env req srv with
      | inl e => (srv, send_error e, [])
      | inr (srv1, auth, options) =>
          match buildMime_settles w options with
          | Rejected m =>
              (meanwhile w srv1, send_error (JsError m), [CallBuildMime options])
          | Fulfilled mime =>
              let raw := base64UrlEncode mime in
              let srv2 := meanwhile w (meanwhile w srv1) in
              match gmailSend_settles w auth "me" raw with
              | Rejected m =>
                  (srv2, send_error (JsError m),
                   [CallBuildMime options; CallGmailSend auth "me" raw])
              | Fulfilled resp =>
                  (srv2,
                   {| status := 200;
                      body := Json (JObj
                        (<["threadId" := js_opt_get (js_opt_get resp "data") "threadId"]>
                           (<["id" := js_opt_get (js_opt_get resp "data") "id"]> ∅))) |},
                   [CallBuildMime options; CallGmailSend auth "me" raw])
              end
          end
      end.
Proof.
  unfold send.
  destruct (negb _); [reflexivity|].
  destruct (send_prepare env req srv) as [e|[[srv1 auth] options]]; [reflexivity|].
  cbn [run].
  destruct (buildMime_settles w options) as [mime|m]; [|reflexivity].
  cbn [run].
  destruct (gmailSend_settles w auth "me" (base64UrlEncode mime)); reflexivity.
Qed.

(** A failed validation is the failure of the whole preparation, and the
    session is not looked at. *)
Lemma send_prepare_invalid env (req : Request number) (srv : Server number) e :
  send_validate (body_of req) = throw e → send_prepare env req srv = throw e.
Proof. intros Hv. unfold send_prepare. by rewrite Hv. Qed.

(** C5 (amended). A [/send] request with the right API key whose headers
    and attachments normalize without error, and in which the recipient is
    missing, or the subject is missing, or the text, the HTML body and a
    non-empty normalized attachment list are all missing, is answered 400
    with the body [{"error":"Require: to, subject, and text/html or
    attachments"}]; the handler stops there, the server state untouched. *)
Theorem C5_missing_required_field env (req : Request number) (srv : Server number)
    normalizedHeaders normalizedAttachments :
  req_headers req !! "x-api-key" = API_KEY env →
  normalizeHeaders (js_field (body_of req) "headers") = ret normalizedHeaders →
  normalizeAttachments (js_field (body_of req) "attachments") = ret normalizedAttachments →
  truthy (js_field (body_of req) "to") = false
  ∨ truthy (js_field (body_of req) "subject") = false
  ∨ (truthy (js_field (body_of req) "text") = false
     ∧ truthy (js_field (body_of req) "html") = false
     ∧ ∀ l, normalizedAttachments = JArr l → l = []) →
  send env req srv =
    Respond srv
      {| status := 400;
         body := Json (JObj {[ "error" :=
                   JStr "Require: to, subject, and text/html or attachments" ]}) |}.
Proof.
  intros Hkey Hh Ha Hmissing.
  assert (Hv : send_validate (body_of req) =
               throw (ValidationError "Require: to, subject, and text/html or attachments")).
  { unfold send_validate. rewrite Hh, Ha. cbn [bind ret].
    destruct Hmissing as [-> | [-> | (-> & -> & Hl)]].
    - reflexivity.
    - by rewrite orb_true_r.
    - destruct normalizedAttachments as [| | | | |l|];
        try by rewrite !orb_true_r.
      by rewrite (Hl l eq_refl), !orb_true_r. }
  unfold send. rewrite bool_decide_eq_true_2 by done. cbn [negb].
  by rewrite (send_prepare_invalid _ _ _ _ Hv).
Qed.

(** C8. The steps of [/send] come in a fixed order.  A wrong key is
    answered 401 and a validation failure 400 with no call made and the
    server state untouched, the session not having been looked at; the
    calls made outside the process are, in order, the composition of the
    message and the provider's send, the latter only after the key check,
    the normalization, the acquisition of the session and a successful
    composition; and an answer 400 or 401 means that no call was made. *)
Theorem C8_send_pipeline_order (w : World number) env (req : Request number)
    (srv : Server number) :
  let key_ok := bool_decide (req_headers req !! "x-api-key" = API_KEY env) in
  let outcome := run w (send env req srv) in
  (key_ok = false →
     outcome = (srv, {| status := 401;
                        body := Json (JObj {[ "error" := JStr "Unauthorized" ]}) |}, []))
  ∧ (key_ok = true → ∀ e, send_validate (body_of req) = throw e →
     outcome = (srv, send_error e, []))
  ∧ (key_ok = true → ∀ e, send_prepare env req srv = throw e →
     outcome = (srv, send_error e, []))
  ∧ (outcome.2 = []
     ∨ ∃ srv1 auth options,
         key_ok = true
         ∧ send_prepare env req srv = ret (srv1, auth, options)
         ∧ (outcome.2 = [CallBuildMime options]
            ∨ ∃ mime,
                buildMime_settles w options = Fulfilled mime
                ∧ outcome.2 = [CallBuildMime options;
                               CallGmailSend auth "me" (base64UrlEncode mime)]))
  ∧ (status outcome.1.2 = 400%Z ∨ status outcome.1.2 = 401%Z → outcome.2 = []).
Proof.
  intros key_ok outcome. subst outcome key_ok. rewrite run_send.
  destruct (bool_decide _) eqn:Hkey; cbn [negb];
    [|repeat split; try done; by left].
  split; [done|].
  split. { intros _ e He. by rewrite (send_prepare_invalid _ _ _ _ He). }
  split. { intros _ e He. by rewrite He. }
  destruct (send_prepare env req srv) as [e|[[srv1 auth] options]].
  { split; [by left|done]. }
  destruct (buildMime_settles w options) as [mime|m] eqn:Hmime.
  - cbv zeta.
    destruct (gmailSend_settles w auth "me" (base64UrlEncode mime)) as [resp|m].
    + split.
      * right. exists srv1, auth, options. repeat split. right. by exists mime.
      * cbn. intros [?|?]; done.
    + split.
      * right. exists srv1, auth, options. repeat split. right. by exists mime.
      * cbn. intros [?|?]; done.
  - split.
    + right. exists srv1, auth, options. repeat split. by left.
    + cbn. intros [?|?]; done.
Qed.

(** ** The encoders *)

(** Induction on a list three elements at a time, as [base64_of_bytes]
    consumes its input. *)
Lemma list_ind3 {A} (P : list A → Prop) :
  P [] → (∀ e1, P [e1]) → (∀ e1 e2, P [e1; e2]) →
  (∀ e1 e2 e3 l, P l → P (e1 :: e2 :: e3 :: l)) →
  ∀ l, P l.
Proof.
  intros H0 H1 H2 H3. fix IH 1.
  intros [|e1 [|e2 [|e3 l]]]; [exact H0 | apply H1 | apply H2 | apply H3, IH].
Qed.

Lemma replace_char_cons c s :
  replace_char "/" "_" (replace_char "+" "-" (String c s)) =
    String (url_translate c) (replace_char "/" "_" (replace_char "+" "-" s)).
Proof. reflexivity. Qed.

(** Every base64 digit becomes a URL-safe character. *)
Lemma url_translate_digit n : url_safe (url_translate (base64_digit n)) = true.
Proof.
  unfold base64_digit. generalize (N.to_nat n). intros k.
  do 64 (destruct k as [|k]; [vm_compute; reflexivity|]).
  by destruct k.
Qed.

Lemma url_safe_not_eq c : url_safe c = true → Ascii.eqb c "=" = false.
Proof.
  intros Hc. destruct (Ascii.eqb c "=") eqn:E; [|done].
  apply Ascii.eqb_eq in E. by subst c.
Qed.

(** Only a trailing ["="] is dropped. *)
Lemma strip_trailing_eq_cons c s :
  Ascii.eqb c "=" = false →
  strip_trailing_eq (String c s) = String c (strip_trailing_eq s).
Proof. intros Hc. cbn [strip_trailing_eq]. rewrite Hc. by destruct (strip_trailing_eq s). Qed.

Lemma length_list_ascii_of_string s :
  length (String.list_ascii_of_string s) = String.length s.
Proof. induction s as [|c s IH]; [done|]. cbn. by rewrite IH. Qed.

(** X1. The encoding of a buffer for the provider uses only the
    characters [A-Z a-z 0-9 - _]: no ["+"], no ["/"] and no padding is
    left; and it has four characters for every three bytes, rounded up. *)
Theorem base64UrlEncode_url_safe (buffer : string) :
  Forall (fun c => url_safe c = true)
    (String.list_ascii_of_string (base64UrlEncode buffer))
  ∧ String.length (base64UrlEncode buffer) = (4 * String.length buffer + 2) / 3.
Proof.
  unfold base64UrlEncode. rewrite <- (length_list_ascii_of_string buffer).
  rewrite <- (length_fmap N_of_ascii).
  generalize (N_of_ascii <$> String.list_ascii_of_string buffer). intros bs.
  induction bs as [|a|a b|a b c bs [IHsafe IHlen]] using list_ind3.
  - split; [constructor | reflexivity].
  - cbn [base64_of_bytes]. rewrite !replace_char_cons.
    rewrite !strip_trailing_eq_cons by apply url_safe_not_eq, url_translate_digit.
    split; [|reflexivity].
    repeat (constructor; [apply url_translate_digit|]). constructor.
  - cbn [base64_of_bytes]. rewrite !replace_char_cons.
    rewrite !strip_trailing_eq_cons by apply url_safe_not_eq, url_translate_digit.
    split; [|reflexivity].
    repeat (constructor; [apply url_translate_digit|]). constructor.
  - cbn [base64_of_bytes]. rewrite !replace_char_cons.
    rewrite !strip_trailing_eq_cons by apply url_safe_not_eq, url_translate_digit.
    split.
    + cbn [String.list_ascii_of_string].
      repeat (constructor; [apply url_translate_digit|]). exact IHsafe.
    + cbn [String.length length]. rewrite IHlen.
      replace (4 * S (S (S (length bs))) + 2) with (4 * length bs + 2 + 4 * 3) by lia.
      rewrite Nat.div_add by done. lia.
Qed.

(** X2. The state token made of random bytes has two lower-case
    hexadecimal digits per byte, and two different draws of bytes never
    give the same token. *)
Theorem hex_of_bytes_token (bs : list N) :
  String.length (hex_of_bytes bs) = 2 * length bs
  ∧ Forall (fun c => hex_char c = true) (String.list_ascii_of_string (hex_of_bytes bs))
  ∧ ∀ bs', Forall (fun b => (b < 256)%N) bs → Forall (fun b => (b < 256)%N) bs' →
           hex_of_bytes bs = hex_of_bytes bs' → bs = bs'.
Proof.
  split; [|split].
  - induction bs as [|b bs IH]; [done|]. cbn [hex_of_bytes String.length length].
    rewrite IH. lia.
  - induction bs as [|b bs IH]; [constructor|].
    cbn [hex_of_bytes String.list_ascii_of_string].
    repeat (constructor; [apply hex_digit_char|]). exact IH.
  - induction bs as [|b bs IH]; intros [|b' bs'] Hbs Hbs' Heq;
      try done.
    cbn [hex_of_bytes] in Heq. injection Heq as Hhi Hlo Hrest.
    inversion Hbs as [|? ? Hb Hbs0]; subst.
    inversion Hbs' as [|? ? Hb' Hbs0']; subst.
    apply hex_digit_inj in Hhi; [|by apply N.Div0.div_lt_upper_bound..].
    apply hex_digit_inj in Hlo; [|by apply N.mod_lt..].
    f_equal; [|by apply IH].
    rewrite (N.div_mod b 16), (N.div_mod b' 16) by done. by rewrite Hhi, Hlo.
Qed.

(** ** The regular expression of [parseDataUrl], in full *)

Lemma canonicalize_semicolon c : canonicalize c = ";"%char → c = ";"%char.
Proof.
  unfold canonicalize. intros Hc.
  destruct ((97 <=? nat_of_ascii c)%nat && (nat_of_ascii c <=? 122)%nat) eqn:E;
    [|done].
  apply andb_true_iff in E as [E1 E2].
  apply Nat.leb_le in E1. apply Nat.leb_le in E2.
  apply (f_equal nat_of_ascii) in Hc.
  rewrite nat_ascii_embedding in Hc by lia.
  change (nat_of_ascii ";") with 59 in Hc. lia.
Qed.

(** A literal matches exactly the prefixes equal to it up to case. *)
Lemma match_literal_ci_Some lit s rest :
  match_literal_ci lit s = Some rest
  ↔ ∃ pre, s = pre +:+ rest ∧ eqb_ci pre lit = true.
Proof.
  revert s. induction lit as [|c lit IH]; intros s; cbn [match_literal_ci].
  - split.
    + intros [= ->]. by exists "".
    + intros ([|? ?] & -> & Hpre); [done | discriminate Hpre].
  - destruct s as [|b s].
    + split; [done|]. intros ([|? ?] & Hs & Hpre); [discriminate Hpre | discriminate Hs].
    + split.
      * destruct (Ascii.eqb (canonicalize c) (canonicalize b)) eqn:E; [|done].
        intros (pre & -> & Hpre)%IH. exists (String b pre). split; [done|].
        cbn [eqb_ci]. rewrite Hpre, andb_true_r.
        apply Ascii.eqb_eq in E. rewrite E. apply Ascii.eqb_refl.
      * intros ([|b' pre] & Hs & Hpre); [discriminate Hpre|].
        cbn [eqb_ci] in Hpre. apply andb_true_iff in Hpre as [Hc Hpre].
        injection Hs as -> ->.
        apply Ascii.eqb_eq in Hc. rewrite Hc, Ascii.eqb_refl.
        apply IH. by exists pre.
Qed.

(** How [[^;]+] splits a string. *)
Lemma span_not_semicolon_spec s mime rest :
  span_not_semicolon s = (mime, rest) →
  s = mime +:+ rest
  ∧ (";"%char ∉ String.list_ascii_of_string mime)
  ∧ (rest = "" ∨ ∃ rest', rest = String ";" rest').
Proof.
  revert mime rest. induction s as [|c s IH]; intros mime rest; cbn [span_not_semicolon].
  - intros [= <- <-]. split; [done|]. split; [apply not_elem_of_nil | by left].
  - destruct (Ascii.eqb c ";") eqn:E.
    + apply Ascii.eqb_eq in E. subst c. intros [= <- <-].
      split; [done|]. split; [apply not_elem_of_nil | right; by eexists].
    + destruct (span_not_semicolon s) as [m r] eqn:Hs. intros [= <- <-].
      destruct (IH m r eq_refl) as (-> & Hm & Hr).
      split; [done|]. split; [|done].
      cbn. apply not_elem_of_cons. split; [|done].
      intros <-. by rewrite Ascii.eqb_refl in E.
Qed.

(** X3. The regular expression of [parseDataUrl] accepts exactly the
    strings made of ["data:"] in any case, a non-empty media type free of
    [";"], [";base64,"] in any case, and a non-empty payload free of line
    terminators; its two captures are the media type and the payload. *)
Theorem exec_data_url_iff (s mime payload : string) :
  exec_data_url s = Some (mime, payload)
  ↔ ∃ scheme marker,
      s = (scheme +:+ mime +:+ marker +:+ payload)
      ∧ eqb_ci scheme "data:" = true
      ∧ eqb_ci marker ";base64," = true
      ∧ mime ≠ ""
      ∧ (";"%char ∉ String.list_ascii_of_string mime)
      ∧ payload ≠ ""
      ∧ has_line_terminator payload = false.
Proof.
  unfold exec_data_url. split.
  - destruct (match_literal_ci "data:" s) as [s1|] eqn:Hscheme; [|done].
    apply match_literal_ci_Some in Hscheme as (scheme & -> & Hscheme).
    destruct (span_not_semicolon s1) as [m s2] eqn:Hspan.
    apply span_not_semicolon_spec in Hspan as (-> & Hm & _).
    destruct (String.eqb m "") eqn:Hne; [done|].
    destruct (match_literal_ci ";base64," s2) as [p|] eqn:Hmarker; [|done].
    apply match_literal_ci_Some in Hmarker as (marker & -> & Hmarker).
    destruct (String.eqb p "") eqn:Hp; [done|].
    destruct (has_line_terminator p) eqn:Hlt; [done|].
    intros [= <- <-]. exists scheme, marker.
    apply String.eqb_neq in Hne. apply String.eqb_neq in Hp. done.
  - intros (scheme & marker & -> & Hscheme & Hmarker & Hm & Hsemi & Hp & Hlt).
    assert (Hlit : match_literal_ci "data:" (scheme +:+ mime +:+ marker +:+ payload)
                   = Some (mime +:+ marker +:+ payload)).
    { apply match_literal_ci_Some. by exists scheme. }
    rewrite Hlit.
    destruct marker as [|c marker]; [discriminate Hmarker|].
    assert (c = ";"%char) as ->.
    { cbn [eqb_ci] in Hmarker. apply andb_true_iff in Hmarker as [Hc _].
      apply Ascii.eqb_eq in Hc. by apply canonicalize_semicolon. }
    change ((String ";" marker) +:+ payload) with (String ";" (marker +:+ payload)).
    rewrite span_not_semicolon_app by done.
    apply String.eqb_neq in Hm. rewrite Hm.
    assert (Hlit2 : match_literal_ci ";base64," (String ";" (marker +:+ payload))
                    = Some payload).
    { apply match_literal_ci_Some. by exists (String ";" marker). }
    rewrite Hlit2. apply String.eqb_neq in Hp. by rewrite Hp, Hlt.
Qed.

(** ** Attachment lists *)

(** [map_indexed] succeeds exactly when the callback succeeds on every
    entry, and then keeps length and order. *)
Lemma map_indexed_ret (f : nat → JsVal number → Res (JsVal number)) (i : nat)
    (l l' : list (JsVal number)) :
  map_indexed f i l = ret l'
  ↔ length l' = length l
    ∧ ∀ j x, l !! j = Some x → ∃ y, l' !! j = Some y ∧ f (i + j) x = ret y.
Proof.
  revert i l'. induction l as [|x0 l IH]; intros i l'; cbn [map_indexed].
  - split.
    + intros [= <-]. split; [done|]. intros j x Hj. by rewrite lookup_nil in Hj.
    + intros [Hlen _]. destruct l'; [done | discriminate Hlen].
  - split.
    + destruct (f i x0) as [e|y0] eqn:Hf; [done|]. cbn [bind].
      destruct (map_indexed f (S i) l) as [e|ys] eqn:Hrest; [done|]. cbn [bind].
      intros [= <-]. apply IH in Hrest as [Hlen Hall].
      split; [cbn; by rewrite Hlen|].
      intros [|j] x Hj; cbn in Hj |- *.
      * injection Hj as <-. exists y0. by rewrite Nat.add_0_r.
      * destruct (Hall j x Hj) as (y & Hy & Hfy). exists y.
        by rewrite Nat.add_succ_r.
    + intros [Hlen Hall]. destruct l' as [|y0 ys]; [discriminate Hlen|].
      destruct (Hall 0 x0 eq_refl) as (y & [= <-] & Hf).
      rewrite Nat.add_0_r in Hf. rewrite Hf. cbn [bind].
      assert (Hrest : map_indexed f (S i) l = ret ys).
      { apply IH. split; [by injection Hlen|].
        intros j x Hj. destruct (Hall (S j) x Hj) as (y & Hy & Hfy).
        exists y. by rewrite Nat.add_succ_r in Hfy. }
      by rewrite Hrest.
Qed.

(** [map_indexed] fails with the exception of the first entry on which
    the callback fails. *)
Lemma map_indexed_throw (f : nat → JsVal number → Res (JsVal number)) (i : nat)
    (l : list (JsVal number)) (e : Exn) :
  map_indexed f i l = throw e
  ↔ ∃ j x, l !! j = Some x ∧ f (i + j) x = throw e
           ∧ ∀ j' x', j' < j → l !! j' = Some x' → ∃ y, f (i + j') x' = ret y.
Proof.
  revert i. induction l as [|x0 l IH]; intros i; cbn [map_indexed].
  - split; [done|]. intros (j & x & Hj & _). by rewrite lookup_nil in Hj.
  - split.
    + destruct (f i x0) as [e0|y0] eqn:Hf; cbn [bind].
      * intros [= <-]. exists 0, x0. rewrite Nat.add_0_r.
        split; [done|]. split; [done|]. intros j' x' Hlt. lia.
      * destruct (map_indexed f (S i) l) as [e0|ys] eqn:Hrest; [|done]. cbn [bind].
        intros [= <-]. apply IH in Hrest as (j & x & Hj & Hfx & Hbefore).
        exists (S j), x. rewrite Nat.add_succ_r.
        split; [done|]. split; [done|].
        intros [|j'] x' Hlt Hj'.
        -- injection Hj' as <-. exists y0. by rewrite Nat.add_0_r.
        -- rewrite Nat.add_succ_r. apply (Hbefore j' x'); [lia | done].
    + intros ([|j] & x & Hj & Hfx & Hbefore).
      * injection Hj as <-. rewrite Nat.add_0_r in Hfx. by rewrite Hfx.
      * destruct (Hbefore 0 x0 ltac:(lia) eq_refl) as (y0 & Hf0).
        rewrite Nat.add_0_r in Hf0. rewrite Hf0. cbn [bind].
        assert (Hrest : map_indexed f (S i) l = throw e).
        { apply IH. exists j, x. rewrite Nat.add_succ_r in Hfx.
          split; [done|]. split; [done|].
          intros j' x' Hlt Hj'.
          destruct (Hbefore (S j') x' ltac:(lia) Hj') as (y & Hy).
          exists y. by rewrite Nat.add_succ_r in Hy. }
        by rewrite Hrest.
Qed.

(** X4. An attachment array normalizes exactly when each entry does, to an
    array of the same length whose entry at each position is the
    normalization of the input entry at that position, with that position
    as its index; otherwise the error is that of the first entry that
    fails, later entries not being looked at.  A truthy input that is not
    an array is refused. *)
Theorem normalizeAttachments_entries (l : list (JsVal number)) :
  (∀ out, normalizeAttachments (JArr l) = ret out
          ↔ ∃ l', out = JArr l' ∧ length l' = length l
                  ∧ ∀ j x, l !! j = Some x →
                           ∃ y, l' !! j = Some y ∧ normalizeAttachment j x = ret y)
  ∧ (∀ e, normalizeAttachments (JArr l) = throw e
          ↔ ∃ j x, l !! j = Some x ∧ normalizeAttachment j x = throw e
                   ∧ ∀ j' x', j' < j → l !! j' = Some x' →
                              ∃ y, normalizeAttachment j' x' = ret y)
  ∧ (∀ input, truthy input = true → isArray input = false →
              normalizeAttachments input
                = throw (ValidationError "attachments must be an array")).
Proof.
  unfold normalizeAttachments. cbn [truthy negb].
  split; [|split].
  - intros out. split.
    + destruct (map_indexed normalizeAttachment 0 l) as [e|l'] eqn:Hmap; [done|].
      cbn [bind]. intros [= <-]. exists l'. split; [done|].
      by apply map_indexed_ret in Hmap.
    + intros (l' & -> & Hl'). apply (map_indexed_ret _ 0) in Hl'. by rewrite Hl'.
  - intros e. split.
    + destruct (map_indexed normalizeAttachment 0 l) as [e'|l'] eqn:Hmap; [|done].
      cbn [bind]. intros [= <-]. by apply map_indexed_throw in Hmap.
    + intros Hfail. apply (map_indexed_throw _ 0) in Hfail. by rewrite Hfail.
  - intros input Ht Harr. rewrite Ht. cbn [negb]. by destruct input.
Qed.

(** What a successful normalization of an entry returns. *)
Lemma normalizeAttachment_ret (index : nat) (attachment out : JsVal number) :
  normalizeAttachment index attachment = ret out →
  ∃ content encoding contentType,
    truthy (js_field attachment "filename") = true
    ∧ truthy content = true
    ∧ out = JObj
        (set_if_truthy "contentDisposition" (js_field attachment "contentDisposition")
           (set_if_truthy "cid" (js_field attachment "cid")
              (set_if_truthy "contentType" contentType
                 (set_if_truthy "encoding" encoding
                    (<["content" := content]>
                       (<["filename" := js_field attachment "filename"]> ∅)))))).
Proof.
  unfold normalizeAttachment.
  destruct (negb (truthy attachment) || negb (typeof_object attachment)); [done|].
  destruct (truthy (js_field attachment "filename")) eqn:Hfile; [|done].
  cbn [negb].
  destruct (parseDataUrl (js_field attachment "content")) as [du|]; cbv beta iota zeta.
  - destruct (negb (truthy (JStr (du_contentBase64 du)))
              && truthy (js_field attachment "contentBase64")); cbv beta iota zeta.
    + destruct (truthy (js_field attachment "contentBase64")) eqn:Hc; [|done].
      intros [= <-]. by eexists _, _, _.
    + destruct (truthy (JStr (du_contentBase64 du))) eqn:Hc; [|done].
      intros [= <-]. by eexists _, _, _.
  - destruct (negb (truthy (js_field attachment "content"))
              && truthy (js_field attachment "contentBase64")); cbv beta iota zeta.
    + destruct (truthy (js_field attachment "contentBase64")) eqn:Hc; [|done].
      intros [= <-]. by eexists _, _, _.
    + destruct (truthy (js_field attachment "content")) eqn:Hc; [|done].
      intros [= <-]. by eexists _, _, _.
Qed.

Lemma set_if_truthy_lookup_Some k' v o k x :
  set_if_truthy k' v o !! k = Some x →
  (k = k' ∧ x = v ∧ truthy v = true) ∨ o !! k = Some x.
Proof.
  unfold set_if_truthy. destruct (truthy v) eqn:Hv; [|by right].
  rewrite lookup_insert_Some. intros [[<- <-]|[_ Ho]]; [by left | by right].
Qed.

(** X5. A normalized attachment is an object with just the six known
    fields and no placeholder: it carries the filename of the entry and a
    content, every field it has is truthy, [cid] and [contentDisposition]
    are copied exactly when they are truthy, and any other field of the
    entry is left behind. *)
Theorem normalizeAttachment_shape (index : nat) (attachment out : JsVal number) :
  normalizeAttachment index attachment = ret out →
  ∃ o, out = JObj o
       ∧ o !! "filename" = Some (js_field attachment "filename")
       ∧ is_Some (o !! "content")
       ∧ o !! "cid" = (if truthy (js_field attachment "cid")
                       then Some (js_field attachment "cid") else None)
       ∧ o !! "contentDisposition" =
           (if truthy (js_field attachment "contentDisposition")
            then Some (js_field attachment "contentDisposition") else None)
       ∧ ∀ k x, o !! k = Some x →
                truthy x = true
                ∧ k ∈ ["filename"; "content"; "encoding"; "contentType";
                       "cid"; "contentDisposition"].
Proof.
  intros (content & encoding & contentType & Hfile & Hcontent & ->)%normalizeAttachment_ret.
  eexists. split; [reflexivity|].
  split; [by rewrite !lookup_set_if_truthy_ne|].
  split; [by rewrite !lookup_set_if_truthy_ne|].
  split.
  { rewrite lookup_set_if_truthy_ne by done.
    rewrite lookup_set_if_truthy_eq; [done|].
    by rewrite !lookup_set_if_truthy_ne. }
  split.
  { rewrite lookup_set_if_truthy_eq; [done|].
    by rewrite !lookup_set_if_truthy_ne. }
  intros k x Hk.
  repeat (apply set_if_truthy_lookup_Some in Hk as [(-> & -> & Ht)|Hk];
          [split; [done | set_solver]|]).
  apply lookup_insert_Some in Hk as [[<- <-]|[_ Hk]]; [split; [done | set_solver]|].
  apply lookup_insert_Some in Hk as [[<- <-]|[_ Hk]]; [split; [done | set_solver]|].
  done.
Qed.

(** ** Headers, again *)

(** X6. When [normalizeHeaders] returns headers for an object, they hold
    only strings, each the printed form of the value the input has under
    the same name, and never an entry named ["__proto__"]; normalizing them
    again changes nothing. *)
Theorem normalizeHeaders_idempotent o (n : gmap string (JsVal number)) :
  normalizeHeaders (JObj o) = ret (JObj n) →
  (∀ k x, n !! k = Some x → ∃ y, o !! k = Some y ∧ x = JStr (String_value y))
  ∧ n !! "__proto__" = None
  ∧ normalizeHeaders (JObj n) = ret (JObj n).
Proof.
  unfold normalizeHeaders. cbn [truthy typeof_object isArray negb orb own_props].
  destruct (headers_loop_spec o) as [[_ ->]|(_ & n' & -> & Hproto & Hn)]; [done|].
  cbn [bind ret]. intros [= <-].
  assert (Hvalues : ∀ k x, n' !! k = Some x →
                           ∃ y, o !! k = Some y ∧ x = JStr (String_value y)).
  { intros k x Hk. destruct (decide (k = "__proto__")) as [->|Hne].
    - by rewrite Hproto in Hk.
    - rewrite Hn in Hk by done.
      destruct (o !! k) as [y|]; [|done]. exists y.
      destruct y; try done; by injection Hk as <-. }
  split; [exact Hvalues|]. split; [exact Hproto|].
  destruct (headers_loop_spec n') as [[(k & x & Hk & Hx) _]|(_ & n2 & -> & Hproto2 & Hn2)].
  { destruct (Hvalues k x Hk) as (y & _ & ->). done. }
  cbn [bind ret]. do 2 f_equal. apply map_eq. intros k.
  destruct (decide (k = "__proto__")) as [->|Hne].
  - by rewrite Hproto, Hproto2.
  - rewrite Hn2 by done.
    destruct (n' !! k) as [x|] eqn:Hk; [|done].
    by destruct (Hvalues k x Hk) as (y & _ & ->).
Qed.

(** X22. For an object, [normalizeHeaders] raises no validation error; it
    fails exactly when [String] cannot convert one of the values (an
    object that has an entry named ["toString"], or an array that holds
    one), with the [TypeError] of the conversion, and [/send] then answers
    500 with that message, no call made and the server untouched. *)
Theorem normalizeHeaders_conversion_failure o :
  (normalizeHeaders (JObj o) = throw (JsError "Cannot convert object to primitive value")
   ↔ ∃ k x, o !! k = Some x ∧ String_throws x = true)
  ∧ (∀ e, normalizeHeaders (JObj o) = throw e →
          e = JsError "Cannot convert object to primitive value")
  ∧ ∀ (w : World number) env (req : Request number) (srv : Server number),
      req_headers req !! "x-api-key" = API_KEY env →
      js_field (body_of req) "headers" = JObj o →
      (∃ k x, o !! k = Some x ∧ String_throws x = true) →
      run w (send env req srv) =
        (srv,
         {| status := 500;
            body := Json (JObj {[ "error" :=
                      JStr "Cannot convert object to primitive value" ]}) |},
         []).
Proof.
  assert (Hthrow : (∃ k x, o !! k = Some x ∧ String_throws x = true) →
            normalizeHeaders (JObj o)
              = throw (JsError "Cannot convert object to primitive value")).
  { intros (k & x & Hk & Hx). unfold normalizeHeaders.
    cbn [truthy typeof_object isArray negb orb own_props].
    destruct (headers_loop_spec o) as [[_ ->]|(Hall & _)]; [done|].
    by rewrite (Hall k x Hk) in Hx. }
  split; [|split].
  - split; [|exact Hthrow].
    unfold normalizeHeaders. cbn [truthy typeof_object isArray negb orb own_props].
    by destruct (headers_loop_spec o) as [[Hex ->]|(_ & n & -> & _)].
  - intros e. unfold normalizeHeaders.
    cbn [truthy typeof_object isArray negb orb own_props].
    destruct (headers_loop_spec o) as [[_ ->]|(_ & n & -> & _)]; [|done].
    by intros [= <-].
  - intros w env req srv Hkey Hheaders Hex. rewrite run_send.
    rewrite bool_decide_eq_true_2 by done. cbn [negb].
    unfold send_prepare, send_validate. rewrite Hheaders, (Hthrow Hex). reflexivity.
Qed.

(** ** Sweeping the pending states *)

Lemma cleanupStates_lookup (now : Z) (srv : Server number) s created :
  oauthStates (cleanupStates now srv) !! s = Some created
  ↔ oauthStates srv !! s = Some created ∧ (now - created ≤ AUTH_STATE_TTL_MS)%Z.
Proof.
  unfold cleanupStates. cbn. rewrite map_lookup_filter_Some. cbn. split.
  - intros [Hs Hage]. split; [done | lia].
  - intros [Hs Hage]. split; [done | lia].
Qed.

(** X7. A sweep keeps exactly the states that are at most ten minutes old
    (a state exactly ten minutes old stays), touches nothing else of the
    server, and a later sweep makes an earlier one redundant (so sweeping
    twice at the same time is sweeping once). *)
Theorem cleanupStates_sweep (now : Z) (srv : Server number) :
  (∀ s created,
     oauthStates (cleanupStates now srv) !! s = Some created
     ↔ oauthStates srv !! s = Some created ∧ (now - created ≤ AUTH_STATE_TTL_MS)%Z)
  ∧ cachedAuthClient (cleanupStates now srv) = cachedAuthClient srv
  ∧ tokens_file (cleanupStates now srv) = tokens_file srv
  ∧ ∀ later, (now ≤ later)%Z →
             cleanupStates later (cleanupStates now srv) = cleanupStates later srv.
Proof.
  split; [apply cleanupStates_lookup|]. split; [done|]. split; [done|].
  intros later Hlater. unfold cleanupStates, with_states. cbn. f_equal.
  apply map_eq. intros s. apply option_eq. intros created.
  rewrite !map_lookup_filter_Some. cbn. split.
  - by intros [[Hs _] Hage].
  - intros [Hs Hage]. split; [|done]. split; [done | lia].
Qed.

(** ** The cached session *)

(** X8. Once [loadOAuthClient] has returned a client, that client is the
    cached one and nothing else of the server has changed; from then on
    every call returns the cached client as it is, whatever has become of
    the token file and of the environment.  A client that was not cached
    before carries the record of the token file, which has a truthy
    refresh token. *)
Theorem loadOAuthClient_caches env (srv srv' : Server number) client :
  loadOAuthClient env srv = ret (srv', client) →
  srv' = with_client srv (Some client)
  ∧ (∀ env' (later : Server number),
       cachedAuthClient later = Some client →
       loadOAuthClient env' later = ret (later, client))
  ∧ (cachedAuthClient srv = None →
     ∃ tokens, tokens_file srv = Parsed tokens
               ∧ credentials client = tokens
               ∧ truthy (js_field tokens "refresh_token") = true).
Proof.
  intros Hload.
  assert (Hlater : ∀ env' (later : Server number),
             cachedAuthClient later = Some client →
             loadOAuthClient env' later = ret (later, client)).
  { intros env' later Hc. unfold loadOAuthClient. by rewrite Hc. }
  unfold loadOAuthClient in Hload.
  destruct (cachedAuthClient srv) as [c|] eqn:Hcache.
  - injection Hload as <- <-. split; [by destruct srv; cbn in *; subst|].
    split; [exact Hlater | done].
  - destruct (tokens_file srv) as [|m|tokens] eqn:Hfile; cbn in Hload; try done.
    destruct tokens; cbn in Hload; try done;
      (match type of Hload with
       | context [truthy ?r] => destruct (truthy r) eqn:Hr
       end; cbn in Hload; [|done]);
      (destruct (createOAuthClient env) as [e|c]; cbn in Hload; [done|]);
      injection Hload as <- <-;
      (split; [done|]; split; [exact Hlater|]; intros _; eexists; by repeat split).
Qed.

(** ** The token listener *)

(** X9. Given an object, the listener never fails and can change nothing
    of the server but the token file.  It leaves the file alone when the
    update brings neither an access token nor a refresh token, and when the
    file cannot be written; otherwise the file holds, name by name, the
    value of the update where the update has the name and the value of the
    client's credentials where it has not (a value [undefined] leaves no
    entry). *)
Theorem on_tokens_merge (update : gmap string (JsVal number)) (srv : Server number) :
  ∃ srv',
    on_tokens (JObj update) srv = ret srv'
    ∧ cachedAuthClient srv' = cachedAuthClient srv
    ∧ oauthStates srv' = oauthStates srv
    ∧ fs_fault srv' = fs_fault srv
    ∧ (truthy (default JUndefined (update !! "access_token")) = false →
       truthy (default JUndefined (update !! "refresh_token")) = false →
       srv' = srv)
    ∧ (is_Some (fs_fault srv) → srv' = srv)
    ∧ (∀ client,
         cachedAuthClient srv = Some client →
         fs_fault srv = None →
         truthy (default JUndefined (update !! "access_token")) = true
         ∨ truthy (default JUndefined (update !! "refresh_token")) = true →
         ∃ stored,
           tokens_file srv' = Parsed (JObj stored)
           ∧ ∀ k, stored !! k =
                    match update !! k ∪ own_props (credentials client) !! k with
                    | None | Some JUndefined => None
                    | Some x => Some (json_image x)
                    end).
Proof.
  unfold on_tokens.
  destruct (cachedAuthClient srv) as [client|] eqn:Hcache.
  2:{ exists srv. by repeat split. }
  cbn [js_get own_props bind ret].
  destruct (negb (truthy (default JUndefined (update !! "access_token")))
            && negb (truthy (default JUndefined (update !! "refresh_token")))) eqn:Hguard.
  { exists srv. split; [done|]. repeat split; try done.
    intros c _ _ Hsome. apply andb_true_iff in Hguard as [Ha Hr].
    apply negb_true_iff in Ha. apply negb_true_iff in Hr.
    destruct Hsome; congruence. }
  unfold write_tokens. destruct (fs_fault srv) as [m|] eqn:Hfs.
  { exists srv. split; [done|]. repeat split; try done. }
  eexists. split; [reflexivity|]. cbn.
  split; [done|]. split; [done|]. split; [done|].
  split.
  { intros Ha Hr. by rewrite Ha, Hr in Hguard. }
  split; [by intros [? ?]|].
  intros c [= <-] _ _. eexists. split; [reflexivity|].
  intros k. rewrite lookup_omap. unfold spread2. cbn [own_props].
  rewrite lookup_union.
  destruct (update !! k ∪ own_props (credentials client) !! k) as [x|]; [|done].
  by destruct x.
Qed.

(** ** [GET /auth/callback], run to its response *)

(** The run of the callback handler, step by step. *)
Lemma run_auth_callback (w : World number) env (req : Request number) (srv : Server number) :
  run w (auth_callback env req srv) =
    if truthy (query_param req "error") then
      (srv, {| status := 400; body := Text "Authorization failed." |}, [])
    else
      match callback_check req srv with
      | inl e => (srv, callback_error e, [])
      | inr state =>
          let srv1 := with_states srv (states_delete (oauthStates srv) state) in
          match createOAuthClient env with
          | inl e => (srv1, callback_error e, [])
          | inr client =>
              match js_String (query_param req "code") with
              | inl e => (srv1, callback_error e, [])
              | inr code =>
                  let srv2 := meanwhile w srv1 in
                  match getToken_settles w client code with
                  | Rejected m =>
                      (srv2, callback_error (JsError m), [CallGetToken client code])
                  | Fulfilled result =>
                      match callback_store result srv2 with
                      | inl e => (srv2, callback_error e, [CallGetToken client code])
                      | inr srv3 =>
                          (srv3,
                           {| status := 200;
                              body := Text "Authorization successful. You can now use /send." |},
                           [CallGetToken client code])
                      end
                  end
              end
          end
      end.
Proof.
  unfold auth_callback.
  destruct (truthy (query_param req "error")); [reflexivity|].
  destruct (callback_check req srv) as [e|state]; [reflexivity|].
  cbv zeta. destruct (createOAuthClient env) as [e|client]; [reflexivity|].
  destruct (js_String (query_param req "code")) as [e|code]; [reflexivity|].
  cbn [run].
  destruct (getToken_settles w client code) as [result|m]; [|reflexivity].
  destruct (callback_store result (meanwhile w _)); reflexivity.
Qed.

Lemma js_String_throw x e : js_String x = throw e → ∃ m, e = JsError m.
Proof. unfold js_String. destruct (String_throws x); [|done]. intros [= <-]. by eexists. Qed.

(** The exceptions met after the state token has been consumed are never
    validation errors. *)
Lemma createOAuthClient_throw env e :
  createOAuthClient (number := number) env = throw e → ∃ m, e = JsError m.
Proof.
  unfold createOAuthClient. destruct (_ || _); [|done]. intros [= <-]. by eexists.
Qed.

Lemma js_get_throw x k e : js_get x k = throw e → ∃ m, e = JsError m.
Proof. destruct x; try done; intros [= <-]; by eexists. Qed.

Lemma callback_store_throw result (srv : Server number) e :
  callback_store result srv = throw e →
  ∃ m, e = JsError m.
Proof.
  unfold callback_store.
  destruct (js_get result "tokens") as [e0|tokens] eqn:Hget; cbn [bind].
  { intros [= <-]. by apply js_get_throw in Hget. }
  destruct (tokens_file srv) as [|m|existing]; cbn [file_exists read_tokens bind ret].
  - destruct (negb _); [intros [= <-]; by eexists|].
    unfold write_tokens. cbn. destruct (fs_fault srv); [|done]. intros [= <-]; by eexists.
  - intros [= <-]. by eexists.
  - destruct (negb _); [intros [= <-]; by eexists|].
    unfold write_tokens. destruct (fs_fault srv); [|done]. intros [= <-]; by eexists.
Qed.

(** Storing the tokens changes the token file only. *)
Lemma callback_store_ret result (srv srv' : Server number) :
  callback_store result srv = ret srv' →
  ∃ tokens existing,
    js_get result "tokens" = ret tokens
    ∧ (if file_exists (tokens_file srv) then read_tokens (tokens_file srv)
       else ret (JObj ∅)) = ret existing
    ∧ truthy (default JUndefined (spread2 existing tokens !! "refresh_token")) = true
    ∧ fs_fault srv = None
    ∧ srv' = with_file srv (Parsed (json_image (JObj (spread2 existing tokens)))).
Proof.
  unfold callback_store.
  destruct (js_get result "tokens") as [e0|tokens]; [done|]. cbn [bind].
  destruct (if file_exists (tokens_file srv) then read_tokens (tokens_file srv)
            else ret (JObj ∅)) as [e0|existing]; [done|]. cbn [bind].
  destruct (truthy (default JUndefined (spread2 existing tokens !! "refresh_token")))
    eqn:Hrt; [|done].
  cbn [negb]. unfold write_tokens. destruct (fs_fault srv) eqn:Hfs; [done|].
  intros [= <-]. by exists tokens, existing.
Qed.

(** X10. A callback answered 400 (the provider reported an error, the code
    or the state is missing, or the state is not pending) has changed
    nothing of the server, has not consumed any state token and has made
    no call to the provider. *)
Theorem auth_callback_400_untouched (w : World number) env (req : Request number)
    (srv : Server number) :
  status (run w (auth_callback env req srv)).1.2 = 400%Z →
  (run w (auth_callback env req srv)).1.1 = srv
  ∧ (run w (auth_callback env req srv)).2 = [].
Proof.
  rewrite run_auth_callback.
  destruct (truthy (query_param req "error")); [done|].
  destruct (callback_check req srv) as [e|state]; [done|].
  cbv zeta. destruct (createOAuthClient env) as [e|client] eqn:Hclient.
  { apply createOAuthClient_throw in Hclient as [m ->]. done. }
  destruct (js_String (query_param req "code")) as [e|code] eqn:Hcode.
  { apply js_String_throw in Hcode as [m ->]. done. }
  destruct (getToken_settles w client code) as [result|m]; [|done].
  destruct (callback_store result _) as [e|srv3] eqn:Hstore; [|done].
  apply callback_store_throw in Hstore as [m ->]. done.
Qed.

(** X11. The callback writes the token file only when it answers 200, and
    the record it then writes has a truthy refresh token: with any other
    answer the file is the one it found; with 200 the exchange was
    fulfilled and the file holds the merge of the record on file and the
    new tokens. *)
Theorem auth_callback_writes_on_success (w : World number) env (req : Request number)
    (srv : Server number) :
  (∀ s, tokens_file (meanwhile w s) = tokens_file s) →
  let outcome := run w (auth_callback env req srv) in
  (status outcome.1.2 ≠ 200%Z → tokens_file outcome.1.1 = tokens_file srv)
  ∧ (status outcome.1.2 = 200%Z →
     ∃ client code result tokens existing,
       outcome.2 = [CallGetToken client code]
       ∧ getToken_settles w client code = Fulfilled result
       ∧ js_get result "tokens" = ret tokens
       ∧ (if file_exists (tokens_file srv) then read_tokens (tokens_file srv)
          else ret (JObj ∅)) = ret existing
       ∧ truthy (default JUndefined (spread2 existing tokens !! "refresh_token")) = true
       ∧ tokens_file outcome.1.1 = Parsed (json_image (JObj (spread2 existing tokens)))).
Proof.
  intros Hfile outcome. subst outcome. rewrite run_auth_callback.
  destruct (truthy (query_param req "error")); [done|].
  destruct (callback_check req srv) as [e|state]; [by destruct e|].
  cbv zeta. destruct (createOAuthClient env) as [e|client]; [by destruct e|].
  destruct (js_String (query_param req "code")) as [e|code]; [by destruct e|].
  destruct (getToken_settles w client code) as [result|m] eqn:Hsettle.
  2:{ split; [intros _; cbn; by rewrite Hfile | done]. }
  destruct (callback_store result _) as [e|srv3] eqn:Hstore.
  { split; [intros _; cbn; by rewrite Hfile | by destruct e]. }
  split; [done|]. intros _.
  apply callback_store_ret in Hstore
    as (tokens & existing & Hget & Hexisting & Hrt & _ & ->).
  rewrite Hfile in Hexisting. cbn in Hexisting.
  by exists client, code, result, tokens, existing.
Qed.

(** X12. The callback never touches the cached session: whatever its
    answer, the cached client is the one it found, so after a successful
    re-authorization [loadOAuthClient] still hands out the client that was
    cached before, with the credentials it had. *)
Theorem auth_callback_keeps_session (w : World number) env (req : Request number)
    (srv : Server number) :
  (∀ s, cachedAuthClient (meanwhile w s) = cachedAuthClient s) →
  let after := (run w (auth_callback env req srv)).1.1 in
  cachedAuthClient after = cachedAuthClient srv
  ∧ ∀ client, cachedAuthClient srv = Some client →
              ∀ env', loadOAuthClient env' after = ret (after, client).
Proof.
  intros Hcache after.
  assert (Hafter : cachedAuthClient after = cachedAuthClient srv).
  { subst after. rewrite run_auth_callback.
    destruct (truthy (query_param req "error")); [done|].
    destruct (callback_check req srv) as [e|state]; [done|].
    cbv zeta. destruct (createOAuthClient env) as [e|client]; [done|].
    destruct (js_String (query_param req "code")) as [e|code]; [done|].
    destruct (getToken_settles w client code) as [result|m]; [|cbn; by rewrite Hcache].
    destruct (callback_store result _) as [e|srv3] eqn:Hstore;
      [cbn; by rewrite Hcache|].
    apply callback_store_ret in Hstore as (? & ? & _ & _ & _ & _ & ->).
    cbn. by rewrite Hcache. }
  split; [exact Hafter|].
  intros client Hclient env'. unfold loadOAuthClient. by rewrite Hafter, Hclient.
Qed.

(** X13. When the exchange brings no refresh token and no token file
    exists, the callback answers 500 "No refresh token received. Revoke
    app and retry.", writes no file, and the state token is spent all the
    same. *)
Theorem auth_callback_no_refresh_token (w : World number) env (req : Request number)
    (srv : Server number) s created client code result tokens :
  truthy (query_param req "error") = false →
  truthy (query_param req "code") = true →
  query_param req "state" = JStr s →
  s ≠ "" →
  oauthStates srv !! s = Some created →
  createOAuthClient env = ret client →
  (∀ s0, tokens_file (meanwhile w s0) = tokens_file s0) →
  (∀ s0, oauthStates (meanwhile w s0) = oauthStates s0) →
  tokens_file srv = NoFile →
  js_String (query_param req "code") = ret code →
  getToken_settles w client code = Fulfilled result →
  js_get result "tokens" = ret tokens →
  truthy (js_field tokens "refresh_token") = false →
  let outcome := run w (auth_callback env req srv) in
  outcome.1.2 = {| status := 500;
                   body := Text "No refresh token received. Revoke app and retry." |}
  ∧ tokens_file outcome.1.1 = NoFile
  ∧ oauthStates outcome.1.1 !! s = None.
Proof.
  intros Herr Hcode Hstate Hs Hpending Hclient Hfile Hstates Hnofile Hstring Hsettle
    Hget Hrt outcome.
  assert (Hrun : outcome =
            (meanwhile w (with_states srv (delete s (oauthStates srv))),
             {| status := 500;
                body := Text "No refresh token received. Revoke app and retry." |},
             [CallGetToken client code])).
  { subst outcome. rewrite run_auth_callback. rewrite Herr.
    unfold callback_check. rewrite Hcode, Hstate.
    pose proof Hs as Hst. apply truthy_JStr in Hst. rewrite Hst.
    cbn [negb orb states_get]. rewrite Hpending. cbn [ret states_delete].
    rewrite Hclient. unfold ret at 1. cbv beta iota zeta.
    rewrite Hstring. unfold ret at 1. cbv beta iota zeta. rewrite Hsettle.
    unfold callback_store. rewrite Hget. cbn [bind].
    rewrite Hfile. cbn [tokens_file with_states]. rewrite Hnofile.
    cbn [file_exists bind ret].
    assert (Hmerged : spread2 (JObj ∅) tokens !! "refresh_token"
                      = own_props tokens !! "refresh_token").
    { unfold spread2. cbn [own_props]. rewrite lookup_union, lookup_empty.
      by destruct (own_props tokens !! "refresh_token"). }
    rewrite Hmerged. unfold js_field in Hrt. by rewrite Hrt. }
  rewrite Hrun. cbn. split; [done|]. split.
  - by rewrite Hfile.
  - rewrite Hstates. cbn. apply lookup_delete_eq.
Qed.

(** X14. Authorization makes the session available: when the tokens of a
    stored exchange bring a refresh token (a non-empty string) and no
    client is cached, the next [loadOAuthClient] succeeds, and the client
    it caches carries the stored record, with that refresh token. *)
Theorem callback_store_then_load env result tokens (srv srv' : Server number) s client0 :
  js_get result "tokens" = ret tokens →
  own_props tokens !! "refresh_token" = Some (JStr s) →
  s ≠ "" →
  callback_store result srv = ret srv' →
  cachedAuthClient srv = None →
  createOAuthClient env = ret client0 →
  ∃ record,
    tokens_file srv' = Parsed record
    ∧ js_field record "refresh_token" = JStr s
    ∧ loadOAuthClient env srv'
        = ret (with_client srv' (Some (setCredentials client0 record)),
               setCredentials client0 record).
Proof.
  intros Hget Hrt Hs Hstore Hcache Hclient.
  apply callback_store_ret in Hstore
    as (tokens' & existing & Hget' & _ & _ & _ & ->).
  rewrite Hget in Hget'. injection Hget' as <-.
  assert (Hmerged : spread2 existing tokens !! "refresh_token" = Some (JStr s)).
  { unfold spread2. by apply lookup_union_Some_l. }
  destruct (lookup_persisted _ _ _ Hmerged ltac:(done)) as (stored & Hstored & Hlookup).
  exists (JObj stored). rewrite Hstored.
  assert (Hfield : js_field (JObj stored) "refresh_token" = JStr s).
  { unfold js_field. cbn [own_props]. by rewrite Hlookup. }
  split; [done|]. split; [done|].
  unfold loadOAuthClient. cbn [cachedAuthClient with_file]. rewrite Hcache.
  cbn [tokens_file with_file file_exists negb read_tokens bind ret js_get own_props].
  rewrite Hlookup. cbn [from_option id json_image].
  apply truthy_JStr in Hs. rewrite Hs. cbn [negb]. by rewrite Hclient.
Qed.

(** ** [POST /send], run to its response *)

(** X15. [/send] answers 200 exactly when the key is right, the
    preparation succeeds and both the composition and the provider's send
    are fulfilled; the body then holds the [id] and the [threadId] found
    under [data] in the provider's response.  A rejection of the
    composition or of the send is answered 500 with the message of the
    rejection as it is. *)
Theorem send_outcomes (w : World number) env (req : Request number) (srv : Server number) :
  let outcome := run w (send env req srv) in
  (status outcome.1.2 = 200%Z
   ↔ bool_decide (req_headers req !! "x-api-key" = API_KEY env) = true
     ∧ ∃ srv1 auth options mime resp,
         send_prepare env req srv = ret (srv1, auth, options)
         ∧ buildMime_settles w options = Fulfilled mime
         ∧ gmailSend_settles w auth "me" (base64UrlEncode mime) = Fulfilled resp
         ∧ body outcome.1.2 =
             Json (JObj (<["threadId" := js_opt_get (js_opt_get resp "data") "threadId"]>
                           (<["id" := js_opt_get (js_opt_get resp "data") "id"]> ∅))))
  ∧ (∀ srv1 auth options m,
       bool_decide (req_headers req !! "x-api-key" = API_KEY env) = true →
       send_prepare env req srv = ret (srv1, auth, options) →
       buildMime_settles w options = Rejected m →
       outcome.1.2 = {| status := 500; body := Json (JObj {[ "error" := JStr m ]}) |}
       ∧ outcome.2 = [CallBuildMime options])
  ∧ (∀ srv1 auth options mime m,
       bool_decide (req_headers req !! "x-api-key" = API_KEY env) = true →
       send_prepare env req srv = ret (srv1, auth, options) →
       buildMime_settles w options = Fulfilled mime →
       gmailSend_settles w auth "me" (base64UrlEncode mime) = Rejected m →
       outcome.1.2 = {| status := 500; body := Json (JObj {[ "error" := JStr m ]}) |}).
Proof.
  intros outcome. subst outcome. rewrite run_send.
  split; [|split].
  - destruct (bool_decide _); cbn [negb].
    2:{ split; [done|]. by intros [? _]. }
    destruct (send_prepare env req srv) as [e|[[srv1 auth] options]].
    { split; [by destruct e|]. by intros (_ & ? & ? & ? & ? & ? & ? & _). }
    destruct (buildMime_settles w options) as [mime|m] eqn:Hmime.
    2:{ split; [done|]. intros (_ & ? & ? & ? & ? & ? & [= <- <- <-] & Hm & _).
        by rewrite Hmime in Hm. }
    cbv zeta.
    destruct (gmailSend_settles w auth "me" (base64UrlEncode mime)) as [resp|m] eqn:Hsend.
    + split; [|done]. intros _. split; [done|].
      by exists srv1, auth, options, mime, resp.
    + split; [done|].
      intros (_ & ? & ? & ? & ? & ? & [= <- <- <-] & Hm & Hs & _).
      rewrite Hmime in Hm. injection Hm as <-. by rewrite Hsend in Hs.
  - intros srv1 auth options m Hkey Hprep Hmime.
    rewrite Hkey, Hprep. unfold ret. cbn [negb]. by rewrite Hmime.
  - intros srv1 auth options mime m Hkey Hprep Hmime Hsend.
    rewrite Hkey, Hprep. unfold ret. cbn [negb]. rewrite Hmime. cbv zeta.
    by rewrite Hsend.
Qed.

(** X16. The steps of [/send] themselves change at most one thing of the
    server: they cache the session they have loaded.  The state the handler
    ends with is the one it found, with the session cached if it was not,
    followed only by what ran while the handler was suspended (other
    handlers, the tokens listener that the provider call may fire). *)
Theorem send_server_effects (w : World number) env (req : Request number)
    (srv : Server number) :
  let after := (run w (send env req srv)).1.1 in
  ∃ srv1,
    (srv1 = srv
     ∨ (cachedAuthClient srv = None
        ∧ ∃ auth, loadOAuthClient env srv = ret (srv1, auth)
                  ∧ srv1 = with_client srv (Some auth)))
    ∧ (after = srv1 ∨ after = meanwhile w srv1
       ∨ after = meanwhile w (meanwhile w srv1)).
Proof.
  intros after. subst after. rewrite run_send.
  destruct (negb _); [exists srv; split; by left|].
  destruct (send_prepare env req srv) as [e|[[srv1 auth] options]] eqn:Hprep;
    [exists srv; split; by left|].
  assert (Hload : loadOAuthClient env srv = ret (srv1, auth)).
  { unfold send_prepare in Hprep.
    destruct (send_validate (body_of req)); [done|]. cbn [bind] in Hprep.
    destruct (loadOAuthClient env srv) as [e|[s' a']]; [done|].
    cbn [bind] in Hprep. by injection Hprep as <- <- _. }
  exists srv1. split.
  - destruct (loadOAuthClient_caches env srv srv1 auth Hload) as (Hwith & _ & _).
    destruct (cachedAuthClient srv) as [c|] eqn:Hcache.
    + left. unfold loadOAuthClient in Hload. rewrite Hcache in Hload.
      by injection Hload as <- _.
    + right. split; [done|]. by exists auth.
  - destruct (buildMime_settles w options); cbv zeta;
      [destruct (gmailSend_settles w auth "me" _)|]; cbn; auto.
Qed.

Lemma js_field_insert_ne o k k' x :
  k ≠ k' → js_field (JObj (<[k' := x]> o)) k = js_field (JObj o) k.
Proof. intros Hne. unfold js_field. cbn [own_props]. by rewrite lookup_insert_ne. Qed.

(** X17. The sender cannot be chosen by the request: a field [from] in the
    body is never read, so two requests that differ only there are handled
    alike, the message being sent from [FROM_EMAIL]. *)
Theorem send_ignores_from env (req req' : Request number) (srv : Server number) o x :
  req_headers req' = req_headers req →
  req_body req = JObj o →
  req_body req' = JObj (<["from" := x]> o) →
  send env req' srv = send env req srv
  ∧ ∀ normalizedHeaders normalizedAttachments,
      js_field (mail_options env (body_of req') normalizedHeaders normalizedAttachments)
        "from"
      = formatAddress (env_val (FROM_EMAIL env)) (js_field (JObj o) "fromName").
Proof.
  intros Hheaders Hbody Hbody'.
  assert (Hprep : send_prepare env req' srv = send_prepare env req srv).
  { unfold send_prepare, body_of. rewrite Hbody, Hbody'. cbn [js_or truthy].
    unfold send_validate, mail_options. by rewrite !js_field_insert_ne. }
  split.
  - unfold send. by rewrite Hheaders, Hprep.
  - intros nh na. unfold body_of. rewrite Hbody'. cbn [js_or truthy].
    unfold mail_options. rewrite !js_field_insert_ne by done.
    unfold js_field at 1. cbn [own_props list_to_map foldr uncurry fst snd].
    do 4 (rewrite lookup_insert_ne by done). by rewrite lookup_insert_eq.
Qed.

(** X18. A valid request met without a cached session is answered 500,
    with no call made and the server untouched, when the token file does
    not exist (the message says where it was looked for) and when the
    record on file has no truthy refresh token. *)
Theorem send_without_credentials (w : World number) env (req : Request number)
    (srv : Server number) normalized :
  req_headers req !! "x-api-key" = API_KEY env →
  send_validate (body_of req) = ret normalized →
  cachedAuthClient srv = None →
  (tokens_file srv = NoFile →
   run w (send env req srv) =
     (srv,
      {| status := 500;
         body := Json (JObj {[ "error" :=
           JStr ("tokens.json not found at " +:+ TOKENS_PATH env
                 +:+ ". Run: npm run auth or visit /auth/start.") ]}) |},
      []))
  ∧ (∀ record, tokens_file srv = Parsed (JObj record) →
       truthy (default JUndefined (record !! "refresh_token")) = false →
       run w (send env req srv) =
         (srv,
          {| status := 500;
             body := Json (JObj {[ "error" :=
               JStr "tokens.json missing refresh_token. Re-run auth with prompt=consent." ]}) |},
          [])).
Proof.
  intros Hkey Hvalid Hcache. rewrite run_send.
  rewrite bool_decide_eq_true_2 by done. cbn [negb].
  unfold send_prepare. rewrite Hvalid. cbn [bind].
  unfold loadOAuthClient. rewrite Hcache. split.
  - intros ->. reflexivity.
  - intros record -> Hrt. cbn [file_exists negb read_tokens bind ret js_get own_props].
    by rewrite Hrt.
Qed.

(** ** The CLI script *)

(** X19. The CLI script overwrites its token file with the tokens of the
    exchange alone, whatever the file held: tokens without a
    [refresh_token] are saved all the same, with a warning, and a server
    started on the file so saved refuses to load its session.  A rejected
    exchange and a file that cannot be written end the script with exit
    code 1. *)
Theorem cli_saves_without_merging (result : JsVal number)
    (tokens : gmap string (JsVal number)) :
  js_get result "tokens" = ret (JObj tokens) →
  tokens !! "refresh_token" = None →
  cli_exchanged (Fulfilled result) None
    = CliSaved (Parsed (json_image (JObj tokens))) true
  ∧ (∀ env (srv : Server number),
       cachedAuthClient srv = None →
       tokens_file srv = Parsed (json_image (JObj tokens)) →
       loadOAuthClient env srv =
         throw (JsError "tokens.json missing refresh_token. Re-run auth with prompt=consent."))
  ∧ (∀ m, cli_exchanged (Fulfilled result) (Some m)
            = CliFailed 1 ("Failed to exchange code for tokens: " +:+ m))
  ∧ (∀ m fault, cli_exchanged (number := number) (Rejected m) fault
                  = CliFailed 1 ("Failed to exchange code for tokens: " +:+ m)).
Proof.
  intros Hget Hrt. unfold cli_exchanged, cli_store. rewrite Hget.
  cbn [bind js_get own_props ret]. rewrite Hrt. cbn [from_option truthy negb].
  split; [done|]. split; [|done].
  intros env srv Hcache Hfile. unfold loadOAuthClient. rewrite Hcache, Hfile.
  rewrite json_image_JObj.
  cbn [file_exists negb read_tokens bind ret js_get own_props].
  by rewrite lookup_omap, Hrt.
Qed.

(** ** [GET /auth/start], without conditions *)

(** X20. [/auth/start] answers at once, 302 when the OAuth client can be
    built and 500 when it cannot, and in both cases the state token of the
    attempt has been registered after the sweep; the token file and the
    cached session are not touched. *)
Theorem auth_start_always_registers env (now_sweep now_set : Z) (random : list N)
    (req : Request number) (srv : Server number) :
  ∃ srv' res,
    auth_start env now_sweep now_set random req srv = Respond srv' res
    ∧ oauthStates srv' =
        <[hex_of_bytes random := now_set]> (oauthStates (cleanupStates now_sweep srv))
    ∧ cachedAuthClient srv' = cachedAuthClient srv
    ∧ tokens_file srv' = tokens_file srv
    ∧ (status res = 302%Z ∨ status res = 500%Z)
    ∧ (status res = 500%Z ↔ ∃ e, createOAuthClient (number := number) env = throw e).
Proof.
  unfold auth_start. destruct (createOAuthClient env) as [e|client].
  - eexists _, _. split; [reflexivity|]. cbn. repeat split; try done.
    + by right.
    + intros _. by exists e.
  - eexists _, _. split; [reflexivity|]. cbn. repeat split; try done.
    + by left.
    + by intros [e ?].
Qed.

(** X21. A state token registered by [/auth/start] is honoured by a
    callback that follows with no other [/auth/start] in between; after
    another [/auth/start] (of another token) it is honoured exactly when it
    was at most ten minutes old at that later sweep, and refused with 400
    "Invalid or expired state." otherwise. *)
Theorem start_then_callback env (srv : Server number) (t0 t0' t1 t1' : Z)
    (random random' : list N) (req0 req1 callback : Request number) client :
  let token := hex_of_bytes random in
  let srv1 := task_server (auth_start env t0 t0' random req0 srv) in
  let srv2 := task_server (auth_start env t1 t1' random' req1 srv1) in
  random ≠ [] →
  hex_of_bytes random' ≠ token →
  createOAuthClient env = ret client →
  truthy (query_param callback "error") = false →
  truthy (query_param callback "code") = true →
  query_param callback "state" = JStr token →
  match js_String (query_param callback "code") with
  | inr code =>
      ∃ resume, auth_callback env callback srv1 =
                  AwaitGetToken (with_states srv1 (delete token (oauthStates srv1))) client
                    code resume
  | inl e =>
      auth_callback env callback srv1 =
        Respond (with_states srv1 (delete token (oauthStates srv1))) (callback_error e)
  end
  ∧ ((t1 - t0' ≤ AUTH_STATE_TTL_MS)%Z →
     match js_String (query_param callback "code") with
     | inr code =>
         ∃ resume, auth_callback env callback srv2 =
                     AwaitGetToken (with_states srv2 (delete token (oauthStates srv2)))
                       client code resume
     | inl e =>
         auth_callback env callback srv2 =
           Respond (with_states srv2 (delete token (oauthStates srv2))) (callback_error e)
     end)
  ∧ ((t1 - t0' > AUTH_STATE_TTL_MS)%Z →
     auth_callback env callback srv2 =
       Respond srv2 {| status := 400; body := Text "Invalid or expired state." |}).
Proof.
  intros token srv1 srv2 Hrandom Hother Hclient Herr Hcode Hstate.
  assert (Htoken : token ≠ "").
  { subst token. destruct random as [|b bs]; [done|]. done. }
  assert (H1 : oauthStates srv1 !! token = Some t0').
  { subst srv1. unfold auth_start. destruct (createOAuthClient env); cbn;
      apply lookup_insert_eq. }
  assert (H2 : oauthStates srv2 !! token =
               if decide (t1 - t0' > AUTH_STATE_TTL_MS)%Z then None else Some t0').
  { subst srv2. unfold auth_start at 1. destruct (createOAuthClient env); cbn;
      (rewrite lookup_insert_ne by done; rewrite map_lookup_filter, H1; cbn;
       case_guard; case_decide; done). }
  split; [|split].
  - by apply (auth_callback_pending env callback srv1 token t0' client).
  - intros Hage. rewrite decide_False in H2 by lia.
    by apply (auth_callback_pending env callback srv2 token t0' client).
  - intros Hage. rewrite decide_True in H2 by lia.
    by apply (auth_callback_unknown env callback srv2 token).
Qed.

End Properties.

(** * Closed examples *)

(** C1 at a refresh that brings an access token only, and at a code
    exchange that brings no refresh token while one is on file. *)
Lemma C1_witness :
  (∃ o, on_tokens access_only_tokens server_with_session
          = ret (with_file server_with_session (Parsed (JObj o)))
        ∧ o !! "refresh_token" = Some (JStr "1//refresh"))
  ∧ (∃ o, callback_store (JObj {[ "tokens" := access_only_tokens ]}) server_with_session
            = ret (with_file server_with_session (Parsed (JObj o)))
          ∧ o !! "refresh_token" = Some (JStr "1//refresh")).
Proof.
  split.
  - apply (proj1 C1_refresh_token_preserved server_with_session
             (setCredentials sample_client
                (JObj (list_to_map [("access_token", JStr "ya29.old");
                                    ("refresh_token", JStr "1//refresh")])))
             access_only_tokens (JStr "1//refresh"));
      [reflexivity | reflexivity | discriminate | reflexivity | reflexivity | reflexivity].
  - apply (proj2 C1_refresh_token_preserved server_with_session
             (JObj {[ "tokens" := access_only_tokens ]}) access_only_tokens
             (JObj (list_to_map [("access_token", JStr "ya29.old");
                                 ("refresh_token", JStr "1//refresh")]))
             (JStr "1//refresh"));
      reflexivity.
Defined.

(** C2: the state registered at time [0] is still accepted by a callback
    handled one millisecond after the ten minutes of the TTL, no
    [/auth/start] having come in between. *)
Lemma C2_witness :
  (600001 - 0 > AUTH_STATE_TTL_MS)%Z
  ∧ ∃ resume,
      auth_callback sample_env sample_callback server_with_pending_state =
        AwaitGetToken
          (with_states server_with_pending_state
             (delete sample_state (oauthStates server_with_pending_state)))
          sample_client "4/0AbCd" resume.
Proof.
  split; [reflexivity|].
  apply (C2_expired_state_accepted sample_env sample_callback
           server_with_pending_state sample_state 0%Z 600001%Z sample_client);
    [reflexivity | reflexivity | reflexivity | discriminate
    | reflexivity | reflexivity | reflexivity].
Defined.

(** The same callback is refused once another [/auth/start], handled after
    the ten minutes, has swept the token. *)
Example expired_state_swept_by_next_start :
  auth_callback sample_env sample_callback
    (task_server (auth_start sample_env 600001 600001 [1; 2; 3]%N (get_request [])
                    server_with_pending_state))
  = Respond
      (task_server (auth_start sample_env 600001 600001 [1; 2; 3]%N (get_request [])
                      server_with_pending_state))
      {| status := 400; body := Text "Invalid or expired state." |}.
Proof. reflexivity. Qed.

(** C3 at the sample callback. *)
Lemma C3_witness :
  oauthStates (task_server
                 (auth_callback sample_env sample_callback server_with_pending_state))
    = delete sample_state (oauthStates server_with_pending_state)
  ∧ ∀ (second : Request Z) (srv2 : Server Z),
      truthy (query_param second "error") = false →
      truthy (query_param second "code") = true →
      query_param second "state" = JStr sample_state →
      oauthStates srv2 !! sample_state = None →
      auth_callback sample_env second srv2 =
        Respond srv2 {| status := 400; body := Text "Invalid or expired state." |}.
Proof.
  pose proof (C3_state_single_use sample_env sample_callback
                server_with_pending_state sample_state 0%Z
                eq_refl eq_refl eq_refl ltac:(discriminate) eq_refl) as Hc3.
  cbv zeta in Hc3. destruct Hc3 as (Hdel & _ & _ & Hsecond).
  split; [exact Hdel | exact Hsecond].
Defined.

(** C4 fails without the OAuth client configuration: the server starts,
    and [/auth/start] fails on the request. *)
Lemma C4_counterexample :
  env_missing (number := Z) (GOOGLE_CLIENT_ID env_without_oauth) = true
  ∧ server_startup (number := Z) env_without_oauth = Started
  ∧ ∃ srv',
      auth_start env_without_oauth 0 0 sample_random (get_request []) fresh_server =
        Respond srv'
          {| status := 500;
             body := Json (JObj {[ "error" := JStr "Missing Google OAuth env vars" ]}) |}.
Proof.
  split; [reflexivity|]. split; [reflexivity|]. eexists. reflexivity.
Qed.

(** C5 at a request without recipient. *)
Lemma C5_witness :
  send sample_env
    (send_request "s3cret" [("subject", JStr "Hello"); ("text", JStr "Sent from the API")])
    fresh_server =
  Respond fresh_server
    {| status := 400;
       body := Json (JObj {[ "error" :=
                 JStr "Require: to, subject, and text/html or attachments" ]}) |}.
Proof.
  apply (C5_missing_required_field sample_env
           (send_request "s3cret" [("subject", JStr "Hello");
                                   ("text", JStr "Sent from the API")])
           fresh_server JUndefined JUndefined);
    [reflexivity | reflexivity | reflexivity | left; reflexivity].
Defined.

(** C5 fails when the headers do not normalize: the recipient is missing,
    and the answer is 400 with another body. *)
Lemma C5_counterexample :
  truthy (js_field (body_of (send_request "s3cret" [("headers", JStr "x")])) "to") = false
  ∧ send sample_env (send_request "s3cret" [("headers", JStr "x")]) fresh_server =
      Respond fresh_server
        {| status := 400;
           body := Json (JObj {[ "error" := JStr "headers must be an object" ]}) |}.
Proof. split; reflexivity. Qed.


(** C7 fails at an entry that supplies [contentBase64] together with an
    encoding: the encoding supplied is kept. *)
Lemma C7_counterexample :
  ∃ o, normalizeAttachment 0 hex_attachment = ret (JObj o)
       ∧ o !! "content" = Some (JStr "AAAA")
       ∧ o !! "encoding" = Some (JStr "hex")
       ∧ o !! "encoding" ≠ Some (JStr "base64").
Proof.
  eexists. split; [reflexivity|]. repeat split; try reflexivity. discriminate.
Qed.

(** C9 fails at a map that is not flat, which is accepted with its nested
    value printed, and at the present but falsy input [false], for which
    nothing is returned and nothing fails. *)
Lemma C9_counterexample :
  normalizeHeaders nested_headers = ret (JObj {[ "X-Meta" := JStr "[object Object]" ]})
  ∧ normalizeHeaders (JBool false : JsVal Z) = ret JUndefined.
Proof. split; reflexivity. Qed.

(** The entry under the key ["__proto__"] is lost, though its value is
    neither [null] nor [undefined]. *)
Example headers_proto_key_dropped :
  normalizeHeaders (JObj {[ "__proto__" := JStr "x"; "X-Job-Id" := JStr "daily-report" ]}
                    : JsVal Z)
  = ret (JObj {[ "X-Job-Id" := JStr "daily-report" ]}).
Proof. reflexivity. Qed.

(** A header value that [String] cannot convert: the request is answered
    500 with the [TypeError], though its recipient is missing. *)
Example headers_toString_value :
  normalizeHeaders (JObj {[ "X" := JObj {[ "toString" := JStr "x" ]} ]} : JsVal Z)
    = throw (JsError "Cannot convert object to primitive value")
  ∧ send sample_env
      (send_request "s3cret"
         [("subject", JStr "Hello");
          ("headers", JObj {[ "X" := JObj {[ "toString" := JStr "x" ]} ]})])
      fresh_server =
    Respond fresh_server
      {| status := 500;
         body := Json (JObj {[ "error" :=
                   JStr "Cannot convert object to primitive value" ]}) |}.
Proof. split; reflexivity. Qed.

(** C10 fails without the OAuth client configuration: the token is
    registered, and the answer is 500 and no redirect. *)
Lemma C10_counterexample :
  ∃ srv',
    auth_start env_without_oauth 5 7 sample_random
      (get_request [("key", JStr "anything")]) fresh_server =
      Respond srv'
        {| status := 500;
           body := Json (JObj {[ "error" := JStr "Missing Google OAuth env vars" ]}) |}
    ∧ oauthStates srv' !! sample_state = Some 7%Z.
Proof. eexists. split; reflexivity. Qed.


(** ** Further closed examples *)

(** X5 at the sample data-URI entry. *)
Lemma normalizeAttachment_shape_witness :
  ∃ o, JObj (list_to_map [("filename", JStr "logo.png"); ("content", JStr "AAAA");
                          ("encoding", JStr "base64"); ("contentType", JStr "image/png")])
       = JObj o
       ∧ o !! "filename" = Some (JStr "logo.png")
       ∧ is_Some (o !! "content")
       ∧ o !! "cid" = None
       ∧ o !! "contentDisposition" = None
       ∧ ∀ k (x : JsVal Z), o !! k = Some x →
           truthy x = true
           ∧ k ∈ ["filename"; "content"; "encoding"; "contentType";
                  "cid"; "contentDisposition"].
Proof.
  exact (normalizeAttachment_shape 0 (JObj png_attachment)
           (JObj (list_to_map [("filename", JStr "logo.png"); ("content", JStr "AAAA");
                               ("encoding", JStr "base64");
                               ("contentType", JStr "image/png")]))
           eq_refl).
Defined.

(** X6 at headers with a number, an array and a [null] among the values. *)
Lemma normalizeHeaders_idempotent_witness :
  normalizeHeaders (JObj mixed_headers)
    = ret (JObj (list_to_map [("X-Job-Id", JStr "daily-report"); ("X-Attempt", JStr "3");
                              ("X-Tags", JStr "a,,b")]))
  ∧ normalizeHeaders
      (JObj (list_to_map [("X-Job-Id", JStr "daily-report"); ("X-Attempt", JStr "3");
                          ("X-Tags", JStr "a,,b")]) : JsVal Z)
    = ret (JObj (list_to_map [("X-Job-Id", JStr "daily-report"); ("X-Attempt", JStr "3");
                              ("X-Tags", JStr "a,,b")])).
Proof.
  split; [reflexivity|].
  exact (proj2 (proj2 (normalizeHeaders_idempotent mixed_headers
                         (list_to_map [("X-Job-Id", JStr "daily-report");
                                       ("X-Attempt", JStr "3");
                                       ("X-Tags", JStr "a,,b")])
                         eq_refl))).
Defined.

(** X8 at a server started on the record of a first authorization. *)
Lemma loadOAuthClient_caches_witness :
  loadOAuthClient sample_env authorized_server
    = ret (with_client authorized_server (Some (setCredentials sample_client first_record)),
           setCredentials sample_client first_record)
  ∧ ∀ env' (later : Server Z),
      cachedAuthClient later = Some (setCredentials sample_client first_record) →
      loadOAuthClient env' later = ret (later, setCredentials sample_client first_record).
Proof.
  split; [reflexivity|].
  exact (proj1 (proj2 (loadOAuthClient_caches sample_env authorized_server
                         (with_client authorized_server
                            (Some (setCredentials sample_client first_record)))
                         (setCredentials sample_client first_record) eq_refl))).
Defined.

(** X10 at a callback that carries no code. *)
Lemma auth_callback_400_untouched_witness :
  (run quiet_world
     (auth_callback sample_env (get_request [("state", JStr sample_state)])
        server_with_pending_state)).1.1 = server_with_pending_state
  ∧ (run quiet_world
       (auth_callback sample_env (get_request [("state", JStr sample_state)])
          server_with_pending_state)).2 = [].
Proof.
  exact (auth_callback_400_untouched quiet_world sample_env
           (get_request [("state", JStr sample_state)]) server_with_pending_state
           eq_refl).
Defined.

(** X11 at the sample callback, the exchange bringing a refresh token. *)
Lemma auth_callback_writes_on_success_witness :
  ∃ client code result tokens existing,
    (run quiet_world
       (auth_callback sample_env sample_callback server_with_pending_state)).2
      = [CallGetToken client code]
    ∧ getToken_settles quiet_world client code = Fulfilled result
    ∧ js_get result "tokens" = ret tokens
    ∧ (if file_exists (tokens_file server_with_pending_state)
       then read_tokens (tokens_file server_with_pending_state)
       else ret (JObj ∅)) = ret existing
    ∧ truthy (default JUndefined (spread2 existing tokens !! "refresh_token")) = true
    ∧ tokens_file
        (run quiet_world
           (auth_callback sample_env sample_callback server_with_pending_state)).1.1
      = Parsed (json_image (JObj (spread2 existing tokens))).
Proof.
  exact (proj2 (auth_callback_writes_on_success quiet_world sample_env sample_callback
                  server_with_pending_state (fun _ => eq_refl)) eq_refl).
Defined.

(** X12 at a server with a cached session that is authorized again. *)
Lemma auth_callback_keeps_session_witness :
  cachedAuthClient
    (run quiet_world
       (auth_callback sample_env
          (get_request [("code", JStr "4/0AbCd"); ("state", JStr "aa")])
          (with_states server_with_session {[ "aa" := 0%Z ]}))).1.1
  = cachedAuthClient server_with_session.
Proof.
  exact (proj1 (auth_callback_keeps_session quiet_world sample_env
                  (get_request [("code", JStr "4/0AbCd"); ("state", JStr "aa")])
                  (with_states server_with_session {[ "aa" := 0%Z ]})
                  (fun _ => eq_refl))).
Defined.

(** X13 at the sample callback, the exchange bringing an access token
    only. *)
Lemma auth_callback_no_refresh_token_witness :
  (run world_without_refresh_token
     (auth_callback sample_env sample_callback server_with_pending_state)).1.2
    = {| status := 500;
         body := Text "No refresh token received. Revoke app and retry." |}
  ∧ tokens_file
      (run world_without_refresh_token
         (auth_callback sample_env sample_callback server_with_pending_state)).1.1
    = NoFile
  ∧ oauthStates
      (run world_without_refresh_token
         (auth_callback sample_env sample_callback server_with_pending_state)).1.1
    !! sample_state = None.
Proof.
  exact (auth_callback_no_refresh_token world_without_refresh_token sample_env
           sample_callback server_with_pending_state sample_state 0%Z sample_client
           "4/0AbCd" (JObj {[ "tokens" := access_only_tokens ]}) access_only_tokens
           eq_refl eq_refl eq_refl ltac:(discriminate) eq_refl eq_refl
           (fun _ => eq_refl) (fun _ => eq_refl) eq_refl eq_refl eq_refl eq_refl
           eq_refl).
Defined.

(** X14 at a first authorization. *)
Lemma callback_store_then_load_witness :
  ∃ record,
    tokens_file (with_file fresh_server (Parsed first_record)) = Parsed record
    ∧ js_field record "refresh_token" = JStr "1//first"
    ∧ loadOAuthClient sample_env (with_file fresh_server (Parsed first_record))
        = ret (with_client (with_file fresh_server (Parsed first_record))
                 (Some (setCredentials sample_client record)),
               setCredentials sample_client record).
Proof.
  exact (callback_store_then_load sample_env (JObj {[ "tokens" := first_record ]})
           first_record fresh_server (with_file fresh_server (Parsed first_record))
           "1//first" sample_client
           eq_refl eq_refl ltac:(discriminate) eq_refl eq_refl eq_refl).
Defined.

(** X17 at a request that names another sender. *)
Lemma send_ignores_from_witness :
  send sample_env
    (send_request "s3cret" [("from", JStr "boss@example.com");
                            ("to", JStr "you@example.com"); ("subject", JStr "Hello");
                            ("text", JStr "Sent from the API")])
    authorized_server
  = send sample_env hello_request authorized_server.
Proof.
  exact (proj1 (send_ignores_from sample_env hello_request
                  (send_request "s3cret" [("from", JStr "boss@example.com");
                                          ("to", JStr "you@example.com");
                                          ("subject", JStr "Hello");
                                          ("text", JStr "Sent from the API")])
                  authorized_server
                  (list_to_map [("to", JStr "you@example.com"); ("subject", JStr "Hello");
                                ("text", JStr "Sent from the API")])
                  (JStr "boss@example.com") eq_refl eq_refl eq_refl)).
Defined.

(** X18 at a valid request on a server that was never authorized. *)
Lemma send_without_credentials_witness :
  run quiet_world (send sample_env hello_request fresh_server) =
    (fresh_server,
     {| status := 500;
        body := Json (JObj {[ "error" :=
          JStr "tokens.json not found at /app/data/tokens.json. Run: npm run auth or visit /auth/start." ]}) |},
     []).
Proof.
  exact (proj1 (send_without_credentials quiet_world sample_env hello_request fresh_server
                  (JUndefined, JUndefined) eq_refl eq_refl eq_refl) eq_refl).
Defined.

(** X19 at an exchange that brings an access token only. *)
Lemma cli_saves_without_merging_witness :
  cli_exchanged (Fulfilled (JObj {[ "tokens" := access_only_tokens ]})) None
    = CliSaved (Parsed access_only_tokens) true.
Proof.
  exact (proj1 (cli_saves_without_merging (JObj {[ "tokens" := access_only_tokens ]})
                  (list_to_map [("access_token", JStr "ya29.new");
                                ("expiry_date", JNum 1700000000000%Z)])
                  eq_refl eq_refl)).
Defined.

(** X21 at two authorization attempts eleven minutes apart. *)
Lemma start_then_callback_witness :
  auth_callback sample_env sample_callback
    (task_server (auth_start sample_env 660000 660000 [1; 2; 3]%N (get_request [])
                    server_with_pending_state))
  = Respond
      (task_server (auth_start sample_env 660000 660000 [1; 2; 3]%N (get_request [])
                      server_with_pending_state))
      {| status := 400; body := Text "Invalid or expired state." |}.
Proof.
  exact (proj2 (proj2 (start_then_callback sample_env fresh_server 0 0 660000 660000
                         sample_random [1; 2; 3]%N (get_request []) (get_request [])
                         sample_callback sample_client
                         ltac:(discriminate) ltac:(discriminate)
                         eq_refl eq_refl eq_refl eq_refl))
           eq_refl).
Defined.

